(** * Eurovision vote preprocessing: the two pipelines, embedded and verified

    The development follows [eurovision_preprocessor.py] (module
    [Preprocessor]) and [eurovision_preprocessor2.py] (module
    [Preprocessor2]).  A pandas [DataFrame] is a list of row records in frame
    order; a column that may hold NaN is an [option]; a Python [dict] is a
    [gmap].  Integer columns are [Z] (the points of the contest are far from
    the bounds of int64); the result of pandas' true division is an exact
    rational extended with the IEEE special values (rounding of float64 is
    not represented).  The row-wise [apply] is a map over the rows, so a run
    on a frame without rows yields lists without rows. *)

From Stdlib Require Import ZArith QArith Qcanon String Ascii.
From Stdlib Require OrderedTypeEx.
From stdpp Require Import base numbers list strings gmap sorting.

Set Warnings "-clear-no-such-hyp".

Local Open Scope Z_scope.
Local Open Scope string_scope.

(** ** Numbers of the weighted column *)

(** A float64 cell: a finite value, an infinity or NaN. *)
Inductive xnum : Type :=
  | Fin (q : Qc)
  | PInf
  | NInf
  | NaN.

Global Instance xnum_eq_dec : EqDecision xnum.
Proof. solve_decision. Defined.

Definition of_int (z : Z) : xnum := Fin (Qc_of_Z z).

Definition is_finite (x : xnum) : bool :=
  match x with Fin _ => true | _ => false end.

(** [a / d] on numeric columns: an integer numerator over a divisor cell that
    is an integer or NaN ([None]).  numpy's [true_divide] raises nothing:
    a zero divisor gives a signed infinity, or NaN for [0 / 0]. *)
Definition true_divide (a : Z) (d : option Z) : xnum :=
  match d with
  | None => NaN
  | Some 0 => if decide (0 < a) then PInf else if decide (a < 0) then NInf else NaN
  | Some d => Fin (Qc_of_Z a / Qc_of_Z d)%Qc
  end.

(** [x * y] on two numeric cells; NaN is absorbing. *)
Definition cell_mul (x y : option Z) : option Z :=
  match x, y with
  | Some a, Some b => Some (a * b)
  | _, _ => None
  end.

(** IEEE addition on the accumulator of a sum. *)
Definition xadd (x y : xnum) : xnum :=
  match x, y with
  | NaN, _ | _, NaN => NaN
  | PInf, NInf | NInf, PInf => NaN
  | PInf, _ | _, PInf => PInf
  | NInf, _ | _, NInf => NInf
  | Fin a, Fin b => Fin (a + b)%Qc
  end.

(** [Series.sum()] and the group-wise [.sum()]: NaN cells are skipped
    ([skipna]), an empty sum is [0]. *)
Definition column_sum (xs : list xnum) : xnum :=
  foldl (fun acc x => match x with NaN => acc | _ => xadd acc x end) (of_int 0) xs.

(** ** Strings *)

(** [str.lower()] on the ASCII letters, the only ones that can take part in a
    match of ['final']. *)
Definition lower_ascii (c : ascii) : ascii :=
  let n := nat_of_ascii c in
  if decide (65 <= n <= 90)%nat then ascii_of_nat (n + 32) else c.

Fixpoint lower (s : string) : string :=
  match s with
  | EmptyString => EmptyString
  | String c t => String (lower_ascii c) (lower t)
  end.

(** ['final' if 'final' in x.lower() else 'semi-final'] *)
Definition normalize_round (x : string) : string :=
  match String.index 0 "final" (lower x) with
  | Some _ => "final"
  | None => "semi-final"
  end.

(** ** Frames *)

(** Modelled from the spec: the column layout of [votes.csv] and
    [contestants.csv], which the sources read but do not declare (spec §3 and
    §6).  A vote carries [points_sf] and [points_final]; the sources also need
    a [to_country] column on both files, since the merge yields
    [to_country_x] and [to_country_y]. *)
Module Vote.
Record t : Type := mk {
  year : Z;
  round : string;
  from_country_id : string;
  to_country_id : string;
  to_country : string;
  points_sf : option Z;
  points_final : option Z;
  total_points : Z
}.
End Vote.

Module Contestant.
Record t : Type := mk {
  year : Z;
  to_country_id : string;
  to_country : string
}.
End Contestant.

(** Modelled from the spec: [hofstede_dimensions.csv] (spec §3,
    CulturalAttributes): a [country_id] and named numeric dimensions. *)
Module Cultural.
Record t : Type := mk {
  country_id : string;
  values : list (option Z)
}.
Record frame : Type := mk_frame {
  dimensions : list string;
  rows : list t
}.
End Cultural.

(** A row of [merged_df]: the vote columns, with [to_country] of the vote as
    [to_country_x] and that of the matched contestant as [to_country_y]
    (NaN when no contestant matches). *)
Module Merged.
Record t : Type := mk {
  year : Z;
  round : string;
  from_country_id : string;
  to_country_id : string;
  to_country_x : string;
  to_country_y : option string;
  points_sf : option Z;
  points_final : option Z;
  total_points : Z
}.
End Merged.

(** A row of [final_df] after the renaming of the columns.  [extra] holds the
    columns only one variant has ([to_country_name] in the first). *)
Module Final.
Record t (X : Type) : Type := mk {
  year : Z;
  round : string;
  from_country : string;
  to_country : string;
  points_given : Z;
  total_points : option Z;
  to_country_participation : option Z;
  extra : X
}.
Arguments mk {X}.
Arguments year {X}.
Arguments round {X}.
Arguments from_country {X}.
Arguments to_country {X}.
Arguments points_given {X}.
Arguments total_points {X}.
Arguments to_country_participation {X}.
Arguments extra {X}.
End Final.

(** A row of [country_counts_df]; [attrs] holds the cultural columns of the
    second variant. *)
Module Node.
Record t (X : Type) : Type := mk {
  country_id : string;
  country_name : option string;
  count : Z;
  attrs : X
}.
Arguments mk {X}.
Arguments country_id {X}.
Arguments country_name {X}.
Arguments count {X}.
Arguments attrs {X}.
End Node.

Module Edge.
Record t : Type := mk {
  from_country : string;
  to_country : string;
  weighted_points : xnum
}.
End Edge.

(** [final_df] before and after the column [weighted_points] exists. *)
Inductive frame (X : Type) : Type :=
  | Unweighted (rows : list (Final.t X))
  | Weighted (rows : list (Final.t X * xnum)).
Arguments Unweighted {X}.
Arguments Weighted {X}.

Definition frame_rows {X} (df : frame X) : list (Final.t X) :=
  match df with
  | Unweighted rows => rows
  | Weighted rows => rows.*1
  end.

(** Selecting a column that does not exist raises [KeyError]. *)
Inductive result (A : Type) : Type :=
  | Ok (a : A)
  | KeyError (column : string).
Arguments Ok {A}.
Arguments KeyError {A}.

(** ** The pandas operations the pipelines use *)

Section frame_operations.
Context {A : Type} `{EqDecision A}.

(** [DataFrame.drop_duplicates()]: the first occurrence of every row is
    kept, in frame order. *)
Fixpoint drop_duplicates (l : list A) : list A :=
  match l with
  | [] => []
  | x :: t => x :: filter (fun y => y <> x) (drop_duplicates t)
  end.

(** Sorting of the group keys ([groupby] has [sort=True]). *)
Fixpoint insert_sorted (le : A -> A -> bool) (k : A) (l : list A) : list A :=
  match l with
  | [] => [k]
  | h :: t => if le k h then k :: l else h :: insert_sorted le k t
  end.

Definition sort_keys (le : A -> A -> bool) (l : list A) : list A :=
  foldr (insert_sorted le) [] l.

(** The keys of a [groupby]: the distinct keys, in ascending order. *)
Definition group_keys (le : A -> A -> bool) (keys : list A) : list A :=
  sort_keys le (drop_duplicates keys).
End frame_operations.

(** Order of a two-column group key: by the first column, then the second. *)
Definition pair_leb (a b : string * string) : bool :=
  match String.compare a.1 b.1 with
  | Lt => true
  | Gt => false
  | Eq => String.leb a.2 b.2
  end.

(** [dict(zip(keys, values))] and [Series.to_dict()]: a later item replaces an
    earlier one with the same key. *)
Definition to_dict {V : Type} (items : list (string * V)) : gmap string V :=
  foldl (fun m kv => <[kv.1 := kv.2]> m) ∅ items.

(** The first non-null cell of a group column (aggregation ['first']). *)
Fixpoint first_valid {V : Type} (l : list (option V)) : option V :=
  match l with
  | [] => None
  | Some v :: _ => Some v
  | None :: t => first_valid t
  end.

(** [votes_df['round'] = votes_df['round'].apply(...)] *)
Definition set_round (v : Vote.t) : Vote.t :=
  Vote.mk (Vote.year v) (normalize_round (Vote.round v)) (Vote.from_country_id v)
          (Vote.to_country_id v) (Vote.to_country v) (Vote.points_sf v)
          (Vote.points_final v) (Vote.total_points v).

Definition merged_row (v : Vote.t) (name : option string) : Merged.t :=
  Merged.mk (Vote.year v) (Vote.round v) (Vote.from_country_id v)
            (Vote.to_country_id v) (Vote.to_country v) name (Vote.points_sf v)
            (Vote.points_final v) (Vote.total_points v).

(** [pd.merge(votes_df, contestants_df, how='left', on=['year',
    'to_country_id'])]: every vote, in order, once per matching contestant
    (in contestant order), or once with NaN when none matches. *)
Definition merge (votes_df : list Vote.t) (contestants_df : list Contestant.t)
  : list Merged.t :=
  v ← votes_df;
  match filter (fun c => Contestant.year c = Vote.year v
                         /\ Contestant.to_country_id c = Vote.to_country_id v)
               contestants_df with
  | [] => [merged_row v None]
  | cs => (fun c => merged_row v (Some (Contestant.to_country c))) <$> cs
  end.

(** [row['points_final'] if row['round'] == 'final' else row['points_sf']] *)
Definition total_points_overall (row : Merged.t) : option Z :=
  if decide (Merged.round row = "final") then Merged.points_final row
  else Merged.points_sf row.

(** ** Functions shared by both files *)

Section shared.
Context {X Y : Type}.

Definition set_weighted_points (f : Final.t X -> xnum) (final_df : frame X)
  : frame X :=
  Weighted ((fun r => (r, f r)) <$> frame_rows final_df).

Definition calculate_weighted_votes (final_df : frame X)
    (weighting_method : string) : frame X :=
  if decide (weighting_method = "No weights") then
    set_weighted_points (fun r => of_int (Final.points_given r)) final_df
  else if decide (weighting_method = "Divide by participation count") then
    set_weighted_points
      (fun r => true_divide (Final.points_given r)
                            (Final.to_country_participation r)) final_df
  else if decide (weighting_method = "Divide by total points") then
    set_weighted_points
      (fun r => true_divide (Final.points_given r) (Final.total_points r))
      final_df
  else if decide (weighting_method = "Divide by both") then
    set_weighted_points
      (fun r => true_divide (Final.points_given r)
                  (cell_mul (Final.total_points r)
                            (Final.to_country_participation r))) final_df
  else final_df.

(** [dict(zip(country_name, country_id))], looked up with the selected
    names only; these are strings, so an entry under a NaN name is never
    found and is left out of the map. *)
Definition country_mapping (country_counts_df : list (Node.t Y))
  : gmap string string :=
  to_dict (omap (fun n => name ← Node.country_name n;
                          Some (name, Node.country_id n)) country_counts_df).

Definition filter_countries (final_df : list (Final.t X))
    (country_counts_df : list (Node.t Y)) (selected_countries : list string)
  : list (Final.t X) :=
  let selected_country_ids :=
    omap (fun country => country_mapping country_counts_df !! country)
         selected_countries in
  filter (fun r => Final.to_country r ∈ selected_country_ids
                   /\ Final.from_country r ∈ selected_country_ids) final_df.

(** The two filters of [main] on the minimum participation count. *)
Definition min_count_nodes (min_participations : Z)
    (country_counts_df : list (Node.t Y)) : list (Node.t Y) :=
  filter (fun n => min_participations <= Node.count n) country_counts_df.

Definition known_endpoints (country_counts_df : list (Node.t Y))
    (final_df : list (Final.t X)) : list (Final.t X) :=
  let ids := Node.country_id <$> country_counts_df in
  filter (fun r => Final.from_country r ∈ ids)
         (filter (fun r => Final.to_country r ∈ ids) final_df).

(** [country_counts_df[country_counts_df['country_name'].isin(selected)]] *)
Definition selected_nodes (selected_countries : list string)
    (country_counts_df : list (Node.t Y)) : list (Node.t Y) :=
  filter (fun n => Node.country_name n ∈ Some <$> selected_countries)
         country_counts_df.

(** The lines of [main] between [preprocess_data] and the weighting, the
    same in both files: the filter on the minimum participation count, then
    the country selection. *)
Definition apply_filters
    (preprocessed : list (Final.t X) * list (Node.t Y))
    (min_participations : Z) (selected_countries : list string)
  : list (Final.t X) * list (Node.t Y) :=
  let '(final_df, country_counts_df) := preprocessed in
  let country_counts_df := min_count_nodes min_participations country_counts_df in
  let final_df := known_endpoints country_counts_df final_df in
  let final_df := filter_countries final_df country_counts_df selected_countries in
  let country_counts_df := selected_nodes selected_countries country_counts_df in
  (final_df, country_counts_df).

Definition edge_key (rw : Final.t X * xnum) : string * string :=
  (Final.from_country rw.1, Final.to_country rw.1).

(** [final_df[final_df['from_country'] != final_df['to_country']]] *)
Definition drop_self_loops (rows : list (Final.t X * xnum))
  : list (Final.t X * xnum) :=
  filter (fun rw => Final.from_country rw.1 <> Final.to_country rw.1) rows.

(** [groupby(['from_country', 'to_country'], as_index=False)
    ['weighted_points'].sum()] *)
Definition groupby_sum (rows : list (Final.t X * xnum)) : list Edge.t :=
  (fun k => Edge.mk k.1 k.2
              (column_sum (snd <$> filter (fun rw => edge_key rw = k) rows)))
    <$> group_keys pair_leb (edge_key <$> rows).

(** [final_df[['from_country', 'to_country', 'weighted_points']]] *)
Definition edge_columns (rows : list (Final.t X * xnum)) : list Edge.t :=
  (fun rw => Edge.mk (Final.from_country rw.1) (Final.to_country rw.1) rw.2)
    <$> rows.
End shared.

(** ** [eurovision_preprocessor.py] *)

Module Preprocessor.

(** A row of [unique_years_df]: year, round, to_country_x, to_country_y. *)
Definition unique_row (m : Merged.t) : Z * string * string * option string :=
  (Merged.year m, Merged.round m, Merged.to_country_x m, Merged.to_country_y m).

Definition merged (contestants_df : list Contestant.t) (votes_df : list Vote.t)
  : list Merged.t :=
  merge (set_round <$> votes_df) contestants_df.

Definition unique_years (merged_df : list Merged.t)
  : list (Z * string * string * option string) :=
  drop_duplicates (unique_row <$> merged_df).

(** [unique_years_df.groupby(['to_country_x', 'to_country_y']).size()],
    renamed to country_id, country_name, count; a group whose key holds NaN
    is dropped. *)
Definition country_counts (unique_years_df : list (Z * string * string * option string))
  : list (Node.t unit) :=
  (fun k => Node.mk k.1 (Some k.2)
              (Z.of_nat (length (filter (fun u => u.1.2 = k.1 /\ u.2 = Some k.2)
                                        unique_years_df))) tt)
    <$> group_keys pair_leb
          (omap (fun u => name ← u.2; Some (u.1.2, name)) unique_years_df).

Definition participation_map {Y} (country_counts_df : list (Node.t Y))
  : gmap string Z :=
  to_dict ((fun n => (Node.country_id n, Node.count n)) <$> country_counts_df).

Definition final_row (participation : gmap string Z) (m : Merged.t)
  : Final.t (option string) :=
  Final.mk (Merged.year m) (Merged.round m) (Merged.from_country_id m)
           (Merged.to_country_id m) (Merged.total_points m)
           (total_points_overall m) (participation !! Merged.to_country_id m)
           (Merged.to_country_y m).

Definition preprocess_data (contestants_df : list Contestant.t)
    (votes_df : list Vote.t)
  : list (Final.t (option string)) * list (Node.t unit) :=
  let merged_df := merged contestants_df votes_df in
  let country_counts_df := country_counts (unique_years merged_df) in
  let final_df :=
    final_row (participation_map country_counts_df) <$> merged_df in
  (final_df, country_counts_df).

Record output : Type := mk_output {
  eurovision_votes : list Edge.t;
  country_counts_df : list (Node.t unit)
}.

(** [main], with the values of the widgets as arguments.  The edge list and
    the node list are shown and, on request, written to [edgelist.csv] and
    [nodelist.csv] as they are. *)
Definition main (contestants_df : list Contestant.t) (votes_df : list Vote.t)
    (weighting_method : string) (min_participations : Z)
    (selected_countries : list string) : result output :=
  let '(final_df, country_counts_df) :=
    apply_filters (preprocess_data contestants_df votes_df)
                  min_participations selected_countries in
  match calculate_weighted_votes (Unweighted final_df) weighting_method with
  | Weighted rows =>
      Ok (mk_output (groupby_sum (drop_self_loops rows)) country_counts_df)
  | Unweighted _ => KeyError "weighted_points"
  end.

End Preprocessor.

(** ** [eurovision_preprocessor2.py] *)

Module Preprocessor2.

(** A row of [unique_years_df]: year, round, to_country_x, to_country_y,
    to_country_id. *)
Definition unique_row (m : Merged.t)
  : Z * string * string * option string * string :=
  (Merged.year m, Merged.round m, Merged.to_country_x m, Merged.to_country_y m,
   Merged.to_country_id m).

(** The votes after the round normalisation and the two optional filters. *)
Definition filtered_votes (votes_df : list Vote.t) (top3_only final_only : bool)
  : list Vote.t :=
  let votes_df := set_round <$> votes_df in
  let votes_df :=
    if top3_only then filter (fun v => 8 <= Vote.total_points v) votes_df
    else votes_df in
  if final_only then filter (fun v => Vote.round v = "final") votes_df
  else votes_df.

Definition merged (contestants_df : list Contestant.t) (votes_df : list Vote.t)
    (top3_only final_only : bool) : list Merged.t :=
  merge (filtered_votes votes_df top3_only final_only) contestants_df.

Definition unique_years (merged_df : list Merged.t)
  : list (Z * string * string * option string * string) :=
  drop_duplicates (unique_row <$> merged_df).

(** [unique_years_df.groupby('to_country_id').agg({'to_country_y': 'first',
    'year': 'size'})], renamed to country_id, country_name, count. *)
Definition country_counts
    (unique_years_df : list (Z * string * string * option string * string))
  : list (Node.t unit) :=
  (fun k =>
     let group := filter (fun u => u.2 = k) unique_years_df in
     Node.mk k (first_valid ((fun u => u.1.2) <$> group))
             (Z.of_nat (length group)) tt)
    <$> group_keys String.leb (snd <$> unique_years_df).

(** [pd.merge(country_counts_df, cultural_df, how='left', on='country_id')] *)
Definition merge_cultural (country_counts_df : list (Node.t unit))
    (cultural_df : Cultural.frame) : list (Node.t (list (option Z))) :=
  n ← country_counts_df;
  let with_values vs :=
    Node.mk (Node.country_id n) (Node.country_name n) (Node.count n) vs in
  match filter (fun c => Cultural.country_id c = Node.country_id n)
               (Cultural.rows cultural_df) with
  | [] => [with_values (replicate (length (Cultural.dimensions cultural_df)) None)]
  | cs => (fun c => with_values (Cultural.values c)) <$> cs
  end.

Definition final_row (participation : gmap string Z) (m : Merged.t)
  : Final.t unit :=
  Final.mk (Merged.year m) (Merged.round m) (Merged.from_country_id m)
           (Merged.to_country_id m) (Merged.total_points m)
           (total_points_overall m) (participation !! Merged.to_country_id m)
           tt.

Definition preprocess_data (contestants_df : list Contestant.t)
    (votes_df : list Vote.t) (cultural_df : Cultural.frame)
    (top3_only final_only : bool)
  : list (Final.t unit) * list (Node.t (list (option Z))) :=
  let merged_df := merged contestants_df votes_df top3_only final_only in
  let country_counts_df :=
    merge_cultural (country_counts (unique_years merged_df)) cultural_df in
  let final_df :=
    final_row (Preprocessor.participation_map country_counts_df) <$> merged_df in
  (final_df, country_counts_df).

(** What [main] shows ([eurovision_votes], [country_counts_df]) and what it
    offers for download ([edge_list_csv], [node_list_csv]). *)
Record output : Type := mk_output {
  eurovision_votes : list Edge.t;
  country_counts_df : list (Node.t (list (option Z)));
  edge_list_csv : list Edge.t;
  node_list_csv : list (Node.t (list (option Z)))
}.

(** [eurovision_votes[eurovision_votes['weighted_points'] != 0]] *)
Definition drop_zero_edges (edges : list Edge.t) : list Edge.t :=
  filter (fun e => Edge.weighted_points e <> of_int 0) edges.

Definition main (contestants_df : list Contestant.t) (votes_df : list Vote.t)
    (cultural_df : Cultural.frame) (top3_only final_only : bool)
    (weighting_method : string) (min_participations : Z)
    (selected_country_names : list string) : result output :=
  let '(final_df, country_counts_df) :=
    apply_filters
      (preprocess_data contestants_df votes_df cultural_df top3_only final_only)
      min_participations selected_country_names in
  match calculate_weighted_votes (Unweighted final_df) weighting_method with
  | Weighted rows =>
      let eurovision_votes :=
        drop_zero_edges (groupby_sum (drop_self_loops rows)) in
      Ok (mk_output eurovision_votes country_counts_df
                    (edge_columns rows) country_counts_df)
  | Unweighted _ => KeyError "weighted_points"
  end.

End Preprocessor2.

(** ** Sample data *)

Module Sample.
Definition contestants : list Contestant.t :=
  [ Contestant.mk 2021 "DE" "Germany"; Contestant.mk 2021 "FR" "France";
    Contestant.mk 2021 "ES" "Spain"; Contestant.mk 1990 "DE" "West Germany";
    Contestant.mk 1990 "FR" "France" ].

Definition votes : list Vote.t :=
  [ Vote.mk 2021 "final" "FR" "DE" "DE" None (Some 40) 10;
    Vote.mk 2021 "final" "ES" "DE" "DE" None (Some 40) 5;
    Vote.mk 2021 "Semi-Final 1" "DE" "FR" "FR" (Some 20) None 8;
    Vote.mk 1990 "final" "FR" "DE" "DE" None (Some 60) 12;
    Vote.mk 1990 "final" "DE" "FR" "FR" None (Some 0) 7;
    Vote.mk 2021 "final" "FR" "FR" "FR" None (Some 30) 3 ].

(** The sample votes with another [points_final] in the first record. *)
Definition votes_rescored : list Vote.t :=
  [ Vote.mk 2021 "final" "FR" "DE" "DE" None (Some 20) 10;
    Vote.mk 2021 "final" "ES" "DE" "DE" None (Some 40) 5;
    Vote.mk 2021 "Semi-Final 1" "DE" "FR" "FR" (Some 20) None 8;
    Vote.mk 1990 "final" "FR" "DE" "DE" None (Some 60) 12;
    Vote.mk 1990 "final" "DE" "FR" "FR" None (Some 0) 7;
    Vote.mk 2021 "final" "FR" "FR" "FR" None (Some 30) 3 ].

(** Two votes of one round for one country, whose label is spelled in two
    ways in the votes file. *)
Definition votes_relabelled : list Vote.t :=
  [ Vote.mk 2021 "final" "FR" "DE" "Germany" None (Some 40) 10;
    Vote.mk 2021 "final" "ES" "DE" "DE" None (Some 40) 5 ].

Definition cultural : Cultural.frame :=
  Cultural.mk_frame ["pdi"; "idv"]
    [ Cultural.mk "DE" [Some 35; Some 67]; Cultural.mk "FR" [Some 68; None] ].
End Sample.

(** ** Notions used in the statements *)

(** The sum of an integer column. *)
Definition sum_Z (zs : list Z) : Z := foldr Z.add 0 zs.

(** The fraction held by a finite cell, in lowest terms. *)
Definition finite_value (x : xnum) : option Q :=
  match x with Fin q => Some (this q) | _ => None end.

(** The divisor of 'Divide by total points' as spec §4.3 words it: the total
    of the points that the voting country awarded in that round of that
    year. *)
Definition points_awarded_by (votes_df : list Vote.t) (year : Z)
    (round from_country : string) : Z :=
  sum_Z (Vote.total_points
           <$> filter (fun v => Vote.year v = year /\ Vote.round v = round
                                /\ Vote.from_country_id v = from_country)
                      votes_df).

(** The number of distinct (year, round) pairs in which a country is the
    destination of a vote of the given frame. *)
Definition participations (votes_df : list Vote.t) (country : string) : Z :=
  Z.of_nat (length (drop_duplicates
                      ((fun v => (Vote.year v, Vote.round v))
                         <$> filter (fun v => Vote.to_country_id v = country) votes_df))).

(** On the given merged rows, year and round determine the label of the
    votes file and the joined contestant name. *)
Definition labels_determined (rows : list Merged.t) : Prop :=
  forall m1 m2, m1 ∈ rows -> m2 ∈ rows ->
    Merged.year m1 = Merged.year m2 -> Merged.round m1 = Merged.round m2 ->
    Merged.to_country_x m1 = Merged.to_country_x m2
    /\ Merged.to_country_y m1 = Merged.to_country_y m2.

(** A vote with its [points_sf] and [points_final] cells blanked: two vote
    frames differ in these two columns only when they agree after blanking. *)
Definition clear_points (v : Vote.t) : Vote.t :=
  Vote.mk (Vote.year v) (Vote.round v) (Vote.from_country_id v)
          (Vote.to_country_id v) (Vote.to_country v) None None (Vote.total_points v).

Definition clear_merged (m : Merged.t) : Merged.t :=
  Merged.mk (Merged.year m) (Merged.round m) (Merged.from_country_id m)
            (Merged.to_country_id m) (Merged.to_country_x m) (Merged.to_country_y m)
            None None (Merged.total_points m).

(** A row of [final_df] with the cell [total_points] (the renamed
    [total_points_overall]) blanked. *)
Definition forget_total {X} (r : Final.t X) : Final.t X :=
  Final.mk (Final.year r) (Final.round r) (Final.from_country r)
           (Final.to_country r) (Final.points_given r) None
           (Final.to_country_participation r) (Final.extra r).

(** The node list of a run, when it returned one. *)
Definition node_list_of {O N} (nodes : O -> N) (r : result O) : result N :=
  match r with
  | Ok o => Ok (nodes o)
  | KeyError column => KeyError column
  end.

(** The three columns that the aggregation reads, and the aggregation on
    them. *)
Definition keyed {X} (rows : list (Final.t X * xnum)) : list (string * string * xnum) :=
  (fun rw => (edge_key rw, rw.2)) <$> rows.

Definition sum_by_key (kvs : list (string * string * xnum)) : list Edge.t :=
  (fun k => Edge.mk k.1 k.2 (column_sum (snd <$> filter (fun kv => kv.1 = k) kvs)))
    <$> group_keys pair_leb (fst <$> kvs).

Section statement_notions.
Context {X Y : Type}.
Implicit Types (r : Final.t X).

(** The four options of the radio button. *)
Definition recognised (weighting_method : string) : Prop :=
  weighting_method = "No weights"
  \/ weighting_method = "Divide by participation count"
  \/ weighting_method = "Divide by total points"
  \/ weighting_method = "Divide by both".

Global Instance recognised_dec m : Decision (recognised m).
Proof. unfold recognised. apply _. Defined.

(** The value of the new column under a recognised option, as a function
    of the row. *)
Definition weight_of (weighting_method : string) r : xnum :=
  if decide (weighting_method = "No weights") then of_int (Final.points_given r)
  else if decide (weighting_method = "Divide by participation count") then
    true_divide (Final.points_given r) (Final.to_country_participation r)
  else if decide (weighting_method = "Divide by total points") then
    true_divide (Final.points_given r) (Final.total_points r)
  else
    true_divide (Final.points_given r)
      (cell_mul (Final.total_points r) (Final.to_country_participation r)).

(** The divisor cell of a row under the three dividing options. *)
Definition weighting_divisor (weighting_method : string) r : option (option Z) :=
  if decide (weighting_method = "Divide by participation count") then
    Some (Final.to_country_participation r)
  else if decide (weighting_method = "Divide by total points") then
    Some (Final.total_points r)
  else if decide (weighting_method = "Divide by both") then
    Some (cell_mul (Final.total_points r) (Final.to_country_participation r))
  else None.

(** Every endpoint of an edge is the [country_id] of a node. *)
Definition referential_integrity (edges : list Edge.t) (nodes : list (Node.t Y))
  : Prop :=
  forall e, e ∈ edges ->
    Edge.from_country e ∈ Node.country_id <$> nodes
    /\ Edge.to_country e ∈ Node.country_id <$> nodes.

(** The rows that survive all filters and are not self-loops. *)
Definition surviving (final_df : list (Final.t X)) : list (Final.t X) :=
  filter (fun r => Final.from_country r <> Final.to_country r) final_df.

Definition no_self_loop (edges : list Edge.t) : Prop :=
  forall e, e ∈ edges -> Edge.from_country e <> Edge.to_country e.
End statement_notions.

(** ** Notions used in the further properties *)

(** The lower-cased name holds 'final' at some position. *)
Definition holds_final (x : string) : Prop :=
  exists m, substring m 5 (lower x) = "final".

(** The order of the group keys, as relations. *)
Definition holds {A} (le : A -> A -> bool) : relation A := fun a b => le a b = true.
Definition string_le : relation string := holds String.leb.
Definition pair_le : relation (string * string) := holds pair_leb.

(** The group key of an edge. *)
Definition edge_pair (e : Edge.t) : string * string :=
  (Edge.from_country e, Edge.to_country e).

(** The ordered pair of a row, and the raw points that the rows of a frame
    hold for a pair. *)
Definition row_pair {X} (r : Final.t X) : string * string :=
  (Final.from_country r, Final.to_country r).

Definition pair_total {X} (rows : list (Final.t X)) (pair : string * string) : Z :=
  sum_Z (Final.points_given <$> filter (fun r => row_pair r = pair) rows).

(** The vote columns of a merged row. *)
Definition vote_of (m : Merged.t) : Vote.t :=
  Vote.mk (Merged.year m) (Merged.round m) (Merged.from_country_id m)
          (Merged.to_country_id m) (Merged.to_country_x m) (Merged.points_sf m)
          (Merged.points_final m) (Merged.total_points m).

(** The contestants that the join matches with a vote. *)
Definition matching (contestants_df : list Contestant.t) (v : Vote.t)
  : list Contestant.t :=
  filter (fun c => Contestant.year c = Vote.year v
                   /\ Contestant.to_country_id c = Vote.to_country_id v)
         contestants_df.

Definition contestant_key (c : Contestant.t) : Z * string :=
  (Contestant.year c, Contestant.to_country_id c).

(** * Properties *)

(** ** Keys of a group-by *)

Section frame_operations_facts.
Context {A : Type} `{EqDecision A}.
Implicit Types l : list A.

Lemma elem_of_drop_duplicates l x : x ∈ drop_duplicates l <-> x ∈ l.
Proof.
  induction l as [|y l IH]; simpl; [done|].
  rewrite !elem_of_cons, list_elem_of_filter, IH.
  destruct (decide (x = y)); naive_solver.
Qed.

Lemma NoDup_drop_duplicates l : NoDup (drop_duplicates l).
Proof.
  induction l as [|y l IH]; simpl; [constructor|].
  apply NoDup_cons. split.
  - rewrite list_elem_of_filter. naive_solver.
  - by apply NoDup_filter.
Qed.

Lemma drop_duplicates_filter (P : A -> Prop) `{!forall x, Decision (P x)} l :
  drop_duplicates (filter P l) = filter P (drop_duplicates l).
Proof.
  induction l as [|y l IH]; simpl; [done|].
  rewrite !filter_cons. destruct (decide (P y)); simpl.
  - rewrite IH. f_equal. rewrite !list_filter_filter.
    apply list_filter_iff. naive_solver.
  - rewrite IH, list_filter_filter. apply list_filter_iff.
    intros x. split; [|naive_solver]. intros Hx. split; [done|]. by intros ->.
Qed.

Lemma insert_sorted_perm le k l : insert_sorted le k l ≡ₚ k :: l.
Proof.
  induction l as [|h l IH]; simpl; [done|].
  destruct (le k h); [done|]. rewrite IH. apply Permutation_swap.
Qed.

Lemma sort_keys_perm le l : sort_keys le l ≡ₚ l.
Proof.
  induction l as [|h l IH]; simpl; [done|].
  unfold sort_keys in *. simpl. by rewrite insert_sorted_perm, IH.
Qed.

Lemma elem_of_group_keys le l x : x ∈ group_keys le l <-> x ∈ l.
Proof.
  unfold group_keys. by rewrite sort_keys_perm, elem_of_drop_duplicates.
Qed.

Lemma NoDup_group_keys le l : NoDup (group_keys le l).
Proof.
  unfold group_keys. rewrite sort_keys_perm. apply NoDup_drop_duplicates.
Qed.
End frame_operations_facts.

(** ** Dictionaries *)

Section to_dict_facts.
Context {V : Type}.
Implicit Types items : list (string * V).

Lemma to_dict_snoc items k v : to_dict (items ++ [(k, v)]) = <[k := v]> (to_dict items).
Proof. unfold to_dict. by rewrite foldl_snoc. Qed.

Lemma to_dict_lookup_Some items k v :
  to_dict items !! k = Some v -> (k, v) ∈ items.
Proof.
  induction items as [|[k' v'] items IH] using rev_ind.
  - unfold to_dict. simpl. by rewrite lookup_empty.
  - rewrite to_dict_snoc, elem_of_app, list_elem_of_singleton.
    destruct (decide (k' = k)) as [->|Hne].
    + rewrite lookup_insert_eq. intros [= ->]. by right.
    + rewrite lookup_insert_ne by done. auto.
Qed.

Lemma to_dict_lookup_is_Some items k :
  k ∈ items.*1 -> is_Some (to_dict items !! k).
Proof.
  induction items as [|[k' v'] items IH] using rev_ind.
  - simpl. by intros ?%elem_of_nil.
  - rewrite fmap_app, elem_of_app, to_dict_snoc. simpl.
    rewrite list_elem_of_singleton.
    destruct (decide (k' = k)) as [->|Hne].
    + rewrite lookup_insert_eq. eauto.
    + rewrite lookup_insert_ne by done. naive_solver.
Qed.
End to_dict_facts.

(** ** The weighting step *)

Section weighting_facts.
Context {X : Type}.
Implicit Types (df : frame X) (r : Final.t X).

Lemma calculate_weighted_votes_recognised df m :
  recognised m ->
  calculate_weighted_votes df m
  = Weighted ((fun r => (r, weight_of m r)) <$> frame_rows df).
Proof.
  unfold calculate_weighted_votes, weight_of, set_weighted_points, recognised.
  intros Hm. repeat case_decide; try done. naive_solver.
Qed.

Lemma calculate_weighted_votes_other df m :
  ~ recognised m -> calculate_weighted_votes df m = df.
Proof.
  unfold calculate_weighted_votes, recognised.
  intros Hm. repeat case_decide; naive_solver.
Qed.
End weighting_facts.

Section weighting_more_facts.
Context {X : Type}.
Implicit Types (df : frame X) (r : Final.t X).

Lemma calculate_weighted_votes_rows df m rows :
  calculate_weighted_votes df m = Weighted rows -> rows.*1 = frame_rows df.
Proof.
  destruct (decide (recognised m)) as [Hm|Hm].
  - rewrite calculate_weighted_votes_recognised by done. intros [= <-].
    rewrite <-list_fmap_compose. apply list_fmap_id.
  - rewrite calculate_weighted_votes_other by done. by intros ->.
Qed.

Lemma true_divide_not_finite a d :
  d = None \/ d = Some 0 -> is_finite (true_divide a d) = false.
Proof.
  intros [->| ->]; simpl; [done|]. by repeat case_decide.
Qed.
End weighting_more_facts.

(** C10: for every [weighting_method] other than the four option strings,
    [calculate_weighted_votes] returns its argument as it is: the frame gets
    no column [weighted_points], and nothing is raised (the function has no
    failing branch). *)
Theorem unrecognised_method_returns_input {X} (final_df : frame X) (weighting_method : string)
    (H1 : weighting_method <> "No weights")
    (H2 : weighting_method <> "Divide by participation count")
    (H3 : weighting_method <> "Divide by total points")
    (H4 : weighting_method <> "Divide by both") :
  calculate_weighted_votes final_df weighting_method = final_df.
Proof.
  apply calculate_weighted_votes_other. unfold recognised. naive_solver.
Qed.

Lemma unrecognised_method_returns_input_witness :
  let final_df := Unweighted (Preprocessor.preprocess_data Sample.contestants Sample.votes).1 in
  "by_total" <> "No weights"
  /\ calculate_weighted_votes final_df "by_total" = final_df.
Proof.
  split; [done|].
  apply (unrecognised_method_returns_input
           (Unweighted (Preprocessor.preprocess_data Sample.contestants Sample.votes).1)
           "by_total"); done.
Defined.

(** C8: under each of the three dividing options the weighting step returns a
    frame with the column [weighted_points] and the same rows in the same
    order, and every row whose divisor cell is zero or missing (NaN) gets a
    weighted value that is not a finite number (NaN or an infinity).  Nothing
    is raised. *)
Theorem zero_or_missing_divisor_gives_non_finite {X} (final_df : frame X)
    (weighting_method : string)
    (Hm : weighting_method = "Divide by participation count"
          \/ weighting_method = "Divide by total points"
          \/ weighting_method = "Divide by both") :
  exists rows,
    calculate_weighted_votes final_df weighting_method = Weighted rows
    /\ rows.*1 = frame_rows final_df
    /\ forall r w d, (r, w) ∈ rows ->
         weighting_divisor weighting_method r = Some d ->
         d = None \/ d = Some 0 ->
         is_finite w = false.
Proof.
  assert (recognised weighting_method) as Hrec by (unfold recognised; tauto).
  eexists. split; [by apply calculate_weighted_votes_recognised|].
  split.
  - rewrite <-list_fmap_compose. apply list_fmap_id.
  - intros r w d (r' & [= -> ->] & _)%list_elem_of_fmap Hd Hzero.
    revert Hd. unfold weighting_divisor, weight_of.
    destruct Hm as [->|[->| ->]]; repeat case_decide; try done;
      intros [= <-]; by apply true_divide_not_finite.
Qed.

Lemma zero_or_missing_divisor_gives_non_finite_witness :
  let final_df := Unweighted (Preprocessor.preprocess_data Sample.contestants Sample.votes).1 in
  exists rows,
    calculate_weighted_votes final_df "Divide by total points" = Weighted rows
    /\ rows.*1 = frame_rows final_df
    /\ forall r w d, (r, w) ∈ rows ->
         weighting_divisor "Divide by total points" r = Some d ->
         d = None \/ d = Some 0 ->
         is_finite w = false.
Proof.
  apply (zero_or_missing_divisor_gives_non_finite
           (Unweighted (Preprocessor.preprocess_data Sample.contestants Sample.votes).1)
           "Divide by total points").
  right. left. reflexivity.
Defined.

(** ** The filters of [main] *)

Section filter_facts.
Context {X Y : Type}.
Implicit Types (final_df : list (Final.t X)) (nodes : list (Node.t Y)).
Implicit Types (pre : list (Final.t X) * list (Node.t Y)).

Lemma country_mapping_lookup nodes name id :
  country_mapping nodes !! name = Some id ->
  exists n, n ∈ nodes /\ Node.country_name n = Some name /\ Node.country_id n = id.
Proof.
  unfold country_mapping.
  intros (n & Hn & Heq)%to_dict_lookup_Some%list_elem_of_omap.
  exists n. destruct (Node.country_name n); simplify_eq/=. done.
Qed.

Lemma selected_id_is_node nodes selected_countries id :
  id ∈ omap (fun country => country_mapping nodes !! country) selected_countries ->
  id ∈ Node.country_id <$> selected_nodes selected_countries nodes.
Proof.
  intros (name & Hname & Hid)%list_elem_of_omap.
  apply country_mapping_lookup in Hid as (n & Hn & Hnm & <-).
  apply list_elem_of_fmap_2. unfold selected_nodes.
  apply list_elem_of_filter. split; [|done].
  rewrite Hnm. by apply list_elem_of_fmap_2.
Qed.

Lemma filter_countries_endpoints final_df nodes selected_countries r :
  r ∈ filter_countries final_df nodes selected_countries ->
  Final.from_country r ∈ Node.country_id <$> selected_nodes selected_countries nodes
  /\ Final.to_country r ∈ Node.country_id <$> selected_nodes selected_countries nodes.
Proof.
  unfold filter_countries. intros [[Hto Hfrom] _]%list_elem_of_filter.
  split; by apply selected_id_is_node.
Qed.

Lemma apply_filters_endpoints pre min_participations selected_countries r :
  r ∈ (apply_filters pre min_participations selected_countries).1 ->
  let nodes := (apply_filters pre min_participations selected_countries).2 in
  Final.from_country r ∈ Node.country_id <$> nodes
  /\ Final.to_country r ∈ Node.country_id <$> nodes.
Proof.
  destruct pre as [final_df nodes0]. simpl. apply filter_countries_endpoints.
Qed.

Lemma apply_filters_nodes pre min_participations selected_countries :
  (apply_filters pre min_participations selected_countries).2
  = selected_nodes selected_countries (min_count_nodes min_participations pre.2).
Proof. by destruct pre. Qed.

Lemma selected_min_count_nodes_length nodes selected_countries (min1 min2 : Z) :
  min1 <= min2 ->
  (length (selected_nodes selected_countries (min_count_nodes min2 nodes))
   <= length (selected_nodes selected_countries (min_count_nodes min1 nodes)))%nat.
Proof.
  intros Hle. unfold selected_nodes, min_count_nodes.
  set (sel := fun n : Node.t Y => Node.country_name n ∈ Some <$> selected_countries).
  replace (filter sel (filter (fun n => min2 <= Node.count n) nodes))
    with (filter (fun n => min2 <= Node.count n)
            (filter sel (filter (fun n => min1 <= Node.count n) nodes))).
  { apply length_filter. }
  rewrite !list_filter_filter. apply list_filter_iff. intros n. unfold sel. naive_solver lia.
Qed.
End filter_facts.

(** ** Edges *)

Section edge_facts.
Context {X : Type}.
Implicit Types (rows : list (Final.t X * xnum)).

Lemma elem_of_groupby_sum rows e :
  e ∈ groupby_sum rows ->
  exists rw, rw ∈ rows /\ edge_key rw = (Edge.from_country e, Edge.to_country e).
Proof.
  unfold groupby_sum.
  intros (k & -> & Hk)%list_elem_of_fmap.
  apply elem_of_group_keys, list_elem_of_fmap in Hk as (rw & -> & Hrw).
  by exists rw.
Qed.

Lemma elem_of_drop_self_loops rows rw :
  rw ∈ drop_self_loops rows <->
  Final.from_country rw.1 <> Final.to_country rw.1 /\ rw ∈ rows.
Proof. unfold drop_self_loops. by rewrite list_elem_of_filter. Qed.

Lemma groupby_sum_no_self_loop rows : no_self_loop (groupby_sum (drop_self_loops rows)).
Proof.
  intros e (rw & [Hne _]%elem_of_drop_self_loops & [= Hf Ht])%elem_of_groupby_sum.
  congruence.
Qed.

Lemma groupby_sum_integrity {Y} rows (nodes : list (Node.t Y)) :
  (forall r, r ∈ rows.*1 ->
     Final.from_country r ∈ Node.country_id <$> nodes
     /\ Final.to_country r ∈ Node.country_id <$> nodes) ->
  referential_integrity (groupby_sum (drop_self_loops rows)) nodes.
Proof.
  intros Hrows e (rw & [_ Hrw]%elem_of_drop_self_loops & [= Hf Ht])%elem_of_groupby_sum.
  rewrite <-Hf, <-Ht. apply Hrows. by apply list_elem_of_fmap_2.
Qed.

Lemma edge_columns_integrity {Y} rows (nodes : list (Node.t Y)) :
  (forall r, r ∈ rows.*1 ->
     Final.from_country r ∈ Node.country_id <$> nodes
     /\ Final.to_country r ∈ Node.country_id <$> nodes) ->
  referential_integrity (edge_columns rows) nodes.
Proof.
  intros Hrows e (rw & -> & Hrw)%list_elem_of_fmap. simpl.
  apply Hrows. by apply list_elem_of_fmap_2.
Qed.
End edge_facts.

Lemma drop_zero_edges_subseteq edges e :
  e ∈ Preprocessor2.drop_zero_edges edges -> e ∈ edges.
Proof. unfold Preprocessor2.drop_zero_edges. by intros [_ ?]%list_elem_of_filter. Qed.

(** ** The two [main] functions return *)

Lemma main_unfold contestants_df votes_df m min_participations selected :
  Preprocessor.main contestants_df votes_df m min_participations selected =
  let filtered := apply_filters (Preprocessor.preprocess_data contestants_df votes_df)
                                min_participations selected in
  match calculate_weighted_votes (Unweighted filtered.1) m with
  | Weighted rows =>
      Ok (Preprocessor.mk_output (groupby_sum (drop_self_loops rows)) filtered.2)
  | Unweighted _ => KeyError "weighted_points"
  end.
Proof.
  unfold Preprocessor.main.
  by destruct (apply_filters _ _ _).
Qed.

Lemma main2_unfold contestants_df votes_df cultural_df top3_only final_only m
    min_participations selected :
  Preprocessor2.main contestants_df votes_df cultural_df top3_only final_only m
                     min_participations selected =
  let filtered :=
    apply_filters (Preprocessor2.preprocess_data contestants_df votes_df cultural_df
                                                 top3_only final_only)
                  min_participations selected in
  match calculate_weighted_votes (Unweighted filtered.1) m with
  | Weighted rows =>
      Ok (Preprocessor2.mk_output
            (Preprocessor2.drop_zero_edges (groupby_sum (drop_self_loops rows)))
            filtered.2 (edge_columns rows) filtered.2)
  | Unweighted _ => KeyError "weighted_points"
  end.
Proof.
  unfold Preprocessor2.main.
  by destruct (apply_filters _ _ _).
Qed.

(** With one of the four options of the radio button both pipelines return
    their lists; with any other string the missing column raises. *)
Lemma main_returns contestants_df votes_df m min_participations selected :
  recognised m ->
  exists o, Preprocessor.main contestants_df votes_df m min_participations selected = Ok o.
Proof.
  intros Hm. rewrite main_unfold. cbv zeta.
  rewrite calculate_weighted_votes_recognised by done. eauto.
Qed.

Lemma main2_returns contestants_df votes_df cultural_df top3_only final_only m
    min_participations selected :
  recognised m ->
  exists o, Preprocessor2.main contestants_df votes_df cultural_df top3_only final_only
                               m min_participations selected = Ok o.
Proof.
  intros Hm. rewrite main2_unfold. cbv zeta.
  rewrite calculate_weighted_votes_recognised by done. eauto.
Qed.

Lemma main_unrecognised contestants_df votes_df m min_participations selected :
  ~ recognised m ->
  Preprocessor.main contestants_df votes_df m min_participations selected
  = KeyError "weighted_points".
Proof.
  intros Hm. rewrite main_unfold. cbv zeta.
  by rewrite calculate_weighted_votes_other.
Qed.

Lemma main2_unrecognised contestants_df votes_df cultural_df top3_only final_only m
    min_participations selected :
  ~ recognised m ->
  Preprocessor2.main contestants_df votes_df cultural_df top3_only final_only
                     m min_participations selected
  = KeyError "weighted_points".
Proof.
  intros Hm. rewrite main2_unfold. cbv zeta.
  by rewrite calculate_weighted_votes_other.
Qed.

Lemma weighted_rows_endpoints {X Y} (pre : list (Final.t X) * list (Node.t Y))
    min_participations selected m rows :
  calculate_weighted_votes
    (Unweighted (apply_filters pre min_participations selected).1) m = Weighted rows ->
  forall r, r ∈ rows.*1 ->
    let nodes := (apply_filters pre min_participations selected).2 in
    Final.from_country r ∈ Node.country_id <$> nodes
    /\ Final.to_country r ∈ Node.country_id <$> nodes.
Proof.
  intros Hw%calculate_weighted_votes_rows r Hr. rewrite Hw in Hr.
  by apply apply_filters_endpoints.
Qed.

(** A run of either [main] that returned, opened. *)
Lemma main_Ok contestants_df votes_df m min_participations selected o :
  Preprocessor.main contestants_df votes_df m min_participations selected = Ok o ->
  let filtered := apply_filters (Preprocessor.preprocess_data contestants_df votes_df)
                                min_participations selected in
  exists rows,
    calculate_weighted_votes (Unweighted filtered.1) m = Weighted rows
    /\ o = Preprocessor.mk_output (groupby_sum (drop_self_loops rows)) filtered.2.
Proof.
  rewrite main_unfold. cbv zeta.
  destruct (calculate_weighted_votes _ _) as [|rows]; [done|].
  intros H. exists rows. split; [done|]. congruence.
Qed.

Lemma main2_Ok contestants_df votes_df cultural_df top3_only final_only m
    min_participations selected o :
  Preprocessor2.main contestants_df votes_df cultural_df top3_only final_only m
                     min_participations selected = Ok o ->
  let filtered :=
    apply_filters (Preprocessor2.preprocess_data contestants_df votes_df cultural_df
                                                 top3_only final_only)
                  min_participations selected in
  exists rows,
    calculate_weighted_votes (Unweighted filtered.1) m = Weighted rows
    /\ o = Preprocessor2.mk_output
             (Preprocessor2.drop_zero_edges (groupby_sum (drop_self_loops rows)))
             filtered.2 (edge_columns rows) filtered.2.
Proof.
  rewrite main2_unfold. cbv zeta.
  destruct (calculate_weighted_votes _ _) as [|rows]; [done|].
  intros H. exists rows. split; [done|]. congruence.
Qed.

Ltac open_main Hw :=
  let rows := fresh "rows" in
  first [intros (rows & Hw & ->)%main_Ok | intros (rows & Hw & ->)%main2_Ok];
  cbn [Preprocessor.eurovision_votes Preprocessor.country_counts_df
       Preprocessor2.eurovision_votes Preprocessor2.country_counts_df
       Preprocessor2.edge_list_csv Preprocessor2.node_list_csv].

(** C5: in both pipelines, for every input and every setting of the widgets,
    each [from_country] and each [to_country] of an emitted edge list (the
    list shown, and the list offered for download by the second file) is the
    [country_id] of a row of the emitted node list. *)
Theorem edge_endpoints_are_nodes contestants_df votes_df cultural_df
    (top3_only final_only : bool) weighting_method min_participations selected :
  (forall o,
     Preprocessor.main contestants_df votes_df weighting_method
                       min_participations selected = Ok o ->
     referential_integrity (Preprocessor.eurovision_votes o)
                           (Preprocessor.country_counts_df o))
  /\ (forall o,
        Preprocessor2.main contestants_df votes_df cultural_df top3_only final_only
                           weighting_method min_participations selected = Ok o ->
        referential_integrity (Preprocessor2.eurovision_votes o)
                              (Preprocessor2.country_counts_df o)
        /\ referential_integrity (Preprocessor2.edge_list_csv o)
                                 (Preprocessor2.node_list_csv o)).
Proof.
  split.
  - intros o. open_main Hw.
    apply groupby_sum_integrity. by eapply weighted_rows_endpoints.
  - intros o. open_main Hw. split.
    + intros e He%drop_zero_edges_subseteq. revert e He.
      apply groupby_sum_integrity. by eapply weighted_rows_endpoints.
    + apply edge_columns_integrity. by eapply weighted_rows_endpoints.
Qed.

Lemma edge_endpoints_are_nodes_witness :
  exists o,
    Preprocessor2.main Sample.contestants Sample.votes Sample.cultural false false
                       "Divide by both" 1 ["Germany"; "France"] = Ok o
    /\ Preprocessor2.eurovision_votes o <> []
    /\ referential_integrity (Preprocessor2.eurovision_votes o)
                             (Preprocessor2.country_counts_df o)
    /\ referential_integrity (Preprocessor2.edge_list_csv o)
                             (Preprocessor2.node_list_csv o).
Proof.
  eexists. split; [vm_compute; reflexivity|]. split; [discriminate|].
  apply (proj2 (edge_endpoints_are_nodes Sample.contestants Sample.votes Sample.cultural
                  false false "Divide by both" 1 ["Germany"; "France"])).
  vm_compute. reflexivity.
Defined.

(** C9: in both pipelines, with the input and all other settings fixed, a
    larger [min_participations] never gives a longer node list. *)
Theorem node_list_antitone_in_min_participations contestants_df votes_df cultural_df
    (top3_only final_only : bool) weighting_method selected (min1 min2 : Z)
    (Hle : min1 <= min2) :
  (forall o1 o2,
     Preprocessor.main contestants_df votes_df weighting_method min1 selected = Ok o1 ->
     Preprocessor.main contestants_df votes_df weighting_method min2 selected = Ok o2 ->
     (length (Preprocessor.country_counts_df o2)
      <= length (Preprocessor.country_counts_df o1))%nat)
  /\ (forall o1 o2,
        Preprocessor2.main contestants_df votes_df cultural_df top3_only final_only
                           weighting_method min1 selected = Ok o1 ->
        Preprocessor2.main contestants_df votes_df cultural_df top3_only final_only
                           weighting_method min2 selected = Ok o2 ->
        (length (Preprocessor2.country_counts_df o2)
         <= length (Preprocessor2.country_counts_df o1))%nat
        /\ (length (Preprocessor2.node_list_csv o2)
            <= length (Preprocessor2.node_list_csv o1))%nat).
Proof.
  split.
  - intros o1 o2. open_main Hw1. open_main Hw2. rewrite !apply_filters_nodes.
    by apply selected_min_count_nodes_length.
  - intros o1 o2. open_main Hw1. open_main Hw2. rewrite !apply_filters_nodes.
    split; by apply selected_min_count_nodes_length.
Qed.

Lemma node_list_antitone_in_min_participations_witness :
  exists o1 o2,
    1 <= 2
    /\ Preprocessor.main Sample.contestants Sample.votes "No weights" 1
                         ["Germany"; "West Germany"; "France"] = Ok o1
    /\ Preprocessor.main Sample.contestants Sample.votes "No weights" 2
                         ["Germany"; "West Germany"; "France"] = Ok o2
    /\ length (Preprocessor.country_counts_df o1) = 3%nat
    /\ length (Preprocessor.country_counts_df o2) = 1%nat
    /\ (length (Preprocessor.country_counts_df o2)
        <= length (Preprocessor.country_counts_df o1))%nat.
Proof.
  eexists _, _. split; [lia|].
  split; [vm_compute; reflexivity|]. split; [vm_compute; reflexivity|].
  split; [reflexivity|]. split; [reflexivity|].
  apply (proj1 (node_list_antitone_in_min_participations Sample.contestants Sample.votes
                  Sample.cultural false false "No weights"
                  ["Germany"; "West Germany"; "France"] 1 2 ltac:(lia)));
    vm_compute; reflexivity.
Defined.

(** X17: the aggregated edge list of either file has no self-loop. *)
Lemma eurovision_votes_no_self_loop contestants_df votes_df cultural_df
    (top3_only final_only : bool) weighting_method min_participations selected :
  (forall o,
     Preprocessor.main contestants_df votes_df weighting_method
                       min_participations selected = Ok o ->
     no_self_loop (Preprocessor.eurovision_votes o))
  /\ (forall o,
        Preprocessor2.main contestants_df votes_df cultural_df top3_only final_only
                           weighting_method min_participations selected = Ok o ->
        no_self_loop (Preprocessor2.eurovision_votes o)).
Proof.
  split.
  - intros o. open_main Hw. apply groupby_sum_no_self_loop.
  - intros o. open_main Hw. intros e He%drop_zero_edges_subseteq. revert e He.
    apply groupby_sum_no_self_loop.
Qed.

(** C4: the list that the second file offers for download is taken from
    [final_df], not from the aggregated [eurovision_votes]; on the sample
    votes, where France gives 3 points to itself in the 2021 final, it holds
    the row (FR, FR, 3), although the list shown beside it has no such
    edge. *)
Theorem downloaded_edge_list_keeps_self_loop :
  exists o,
    Preprocessor2.main Sample.contestants Sample.votes Sample.cultural false false
                       "No weights" 1 ["Germany"; "France"] = Ok o
    /\ Edge.mk "FR" "FR" (of_int 3) ∈ Preprocessor2.edge_list_csv o
    /\ ~ no_self_loop (Preprocessor2.edge_list_csv o)
    /\ no_self_loop (Preprocessor2.eurovision_votes o).
Proof.
  eexists. split; [vm_compute; reflexivity|].
  split; [|split].
  - simpl. do 4 apply list_elem_of_further. apply list_elem_of_here.
  - intros Hno. apply (Hno (Edge.mk "FR" "FR" (of_int 3))); [|reflexivity].
    simpl. do 4 apply list_elem_of_further. apply list_elem_of_here.
  - intros e He. simpl in He.
    repeat (apply elem_of_cons in He as [->|He]; [simpl; discriminate|]).
    by apply elem_of_nil in He.
Qed.

(** ** Sums *)

Lemma filter_fmap {A B} (f : A -> B) (P : B -> Prop) `{!forall y, Decision (P y)}
    (l : list A) :
  filter P (f <$> l) = f <$> filter (fun x => P (f x)) l.
Proof.
  induction l as [|x l IH]; [done|].
  rewrite fmap_cons, !filter_cons.
  destruct (decide (P (f x))); by rewrite ?fmap_cons, IH.
Qed.

Lemma sum_Z_cons z zs : sum_Z (z :: zs) = z + sum_Z zs.
Proof. done. Qed.

Lemma sum_Z_fmap_add {K} (f g : K -> Z) (ks : list K) :
  sum_Z ((fun k => f k + g k) <$> ks) = sum_Z (f <$> ks) + sum_Z (g <$> ks).
Proof.
  induction ks as [|k ks IH]; [done|].
  rewrite !fmap_cons, !sum_Z_cons, IH. lia.
Qed.

Lemma sum_Z_zero {K} (ks : list K) : sum_Z ((fun _ => 0) <$> ks) = 0.
Proof. induction ks as [|k ks IH]; [done|]. by rewrite fmap_cons, sum_Z_cons, IH. Qed.

Lemma sum_Z_indicator {K} `{EqDecision K} (k0 : K) (a : Z) (ks : list K) :
  NoDup ks -> k0 ∈ ks ->
  sum_Z ((fun k => if decide (k0 = k) then a else 0) <$> ks) = a.
Proof.
  induction 1 as [|k ks Hk Hnd IH]; [by intros ?%elem_of_nil|].
  rewrite fmap_cons, sum_Z_cons. intros [->|Hin]%elem_of_cons.
  - rewrite decide_True by done.
    rewrite (list_fmap_ext _ (fun _ => 0) ks), sum_Z_zero; [lia|].
    intros _ k' Hk'%list_elem_of_lookup_2. apply decide_False. by intros ->.
  - rewrite decide_False by (intros ->; done). by rewrite IH.
Qed.

(** Summing group by group gives the sum of the whole column. *)
Lemma sum_Z_by_group {A K} `{EqDecision K} (key : A -> K) (f : A -> Z)
    (l : list A) (ks : list K) :
  NoDup ks -> (forall x, x ∈ l -> key x ∈ ks) ->
  sum_Z ((fun k => sum_Z (f <$> filter (fun x => key x = k) l)) <$> ks)
  = sum_Z (f <$> l).
Proof.
  intros Hnd. induction l as [|x l IH]; intros Hks.
  - apply sum_Z_zero.
  - rewrite fmap_cons, sum_Z_cons.
    rewrite <-(IH (fun y Hy => Hks y (list_elem_of_further _ _ _ Hy))).
    rewrite <-(sum_Z_indicator (key x) (f x) ks Hnd (Hks x (list_elem_of_here _ _))).
    rewrite <-sum_Z_fmap_add. f_equal. apply list_fmap_ext. intros _ k _.
    rewrite filter_cons. destruct (decide (key x = k)); [|lia].
    by rewrite fmap_cons, sum_Z_cons.
Qed.

Lemma column_sum_of_int_from (a : Z) (zs : list Z) :
  foldl (fun acc x => match x with NaN => acc | _ => xadd acc x end)
        (of_int a) (of_int <$> zs)
  = of_int (a + sum_Z zs).
Proof.
  revert a. induction zs as [|z zs IH]; intros a.
  - simpl. f_equal. lia.
  - rewrite fmap_cons, sum_Z_cons. simpl. rewrite <-Z2Qc_inj_add.
    fold (of_int (a + z)). rewrite IH. f_equal. lia.
Qed.

Lemma column_sum_of_int (zs : list Z) : column_sum (of_int <$> zs) = of_int (sum_Z zs).
Proof. unfold column_sum. by rewrite column_sum_of_int_from. Qed.

(** A cell equal to zero does not change a sum. *)
Lemma column_sum_drop_zero_from (acc : xnum) (xs : list xnum) :
  foldl (fun acc x => match x with NaN => acc | _ => xadd acc x end) acc
        (filter (fun x => x <> of_int 0) xs)
  = foldl (fun acc x => match x with NaN => acc | _ => xadd acc x end) acc xs.
Proof.
  revert acc. induction xs as [|x xs IH]; intros acc; [done|].
  rewrite filter_cons. destruct (decide (x <> of_int 0)) as [Hx|Hx]; simpl.
  - apply IH.
  - apply dec_stable in Hx as ->. rewrite IH. f_equal.
    unfold of_int. rewrite Z2Qc_inj_0.
    destruct acc; simpl; try done. by rewrite Qcplus_0_r.
Qed.

Lemma column_sum_drop_zero (xs : list xnum) :
  column_sum (filter (fun x => x <> of_int 0) xs) = column_sum xs.
Proof. apply column_sum_drop_zero_from. Qed.

Lemma drop_zero_edges_weights (edges : list Edge.t) :
  Edge.weighted_points <$> Preprocessor2.drop_zero_edges edges
  = filter (fun x => x <> of_int 0) (Edge.weighted_points <$> edges).
Proof. unfold Preprocessor2.drop_zero_edges. by rewrite filter_fmap. Qed.

Section none_weighting.
Context {X : Type}.
Implicit Types (final_df : list (Final.t X)).

Lemma groupby_sum_none final_df :
  Edge.weighted_points
    <$> groupby_sum ((fun r => (r, of_int (Final.points_given r))) <$> final_df)
  = of_int <$>
      ((fun k => sum_Z (Final.points_given
                          <$> filter (fun r => (Final.from_country r,
                                                Final.to_country r) = k) final_df))
         <$> group_keys pair_leb
               ((fun r => (Final.from_country r, Final.to_country r)) <$> final_df)).
Proof.
  unfold groupby_sum. rewrite <-!list_fmap_compose.
  apply list_fmap_ext. intros _ k _. simpl.
  rewrite filter_fmap, <-!list_fmap_compose. simpl.
  rewrite <-column_sum_of_int, <-list_fmap_compose. done.
Qed.

Lemma drop_self_loops_fmap (f : Final.t X -> xnum) final_df :
  drop_self_loops ((fun r => (r, f r)) <$> final_df)
  = (fun r => (r, f r)) <$> surviving final_df.
Proof. unfold drop_self_loops, surviving. by rewrite filter_fmap. Qed.

Lemma groupby_sum_none_total final_df :
  column_sum
    (Edge.weighted_points
       <$> groupby_sum ((fun r => (r, of_int (Final.points_given r))) <$> final_df))
  = of_int (sum_Z (Final.points_given <$> final_df)).
Proof.
  rewrite groupby_sum_none, column_sum_of_int. f_equal.
  apply (sum_Z_by_group (fun r => (Final.from_country r, Final.to_country r))).
  - apply NoDup_group_keys.
  - intros r Hr. rewrite elem_of_group_keys, list_elem_of_fmap. eauto.
Qed.

Lemma weight_of_none (r : Final.t X) :
  weight_of "No weights" r = of_int (Final.points_given r).
Proof. done. Qed.
End none_weighting.

(** C7: with the option 'No weights', in both pipelines, the sum of
    [weighted_points] over the aggregated edge list equals the sum of the raw
    [points_given] over the rows of [final_df] that passed all filters and are
    not self-loops. *)
Theorem none_weighting_preserves_total contestants_df votes_df cultural_df
    (top3_only final_only : bool) min_participations selected :
  (exists o,
     Preprocessor.main contestants_df votes_df "No weights"
                       min_participations selected = Ok o
     /\ column_sum (Edge.weighted_points <$> Preprocessor.eurovision_votes o)
        = of_int (sum_Z (Final.points_given
                           <$> surviving
                                 (apply_filters
                                    (Preprocessor.preprocess_data contestants_df votes_df)
                                    min_participations selected).1)))
  /\ (exists o,
        Preprocessor2.main contestants_df votes_df cultural_df top3_only final_only
                           "No weights" min_participations selected = Ok o
        /\ column_sum (Edge.weighted_points <$> Preprocessor2.eurovision_votes o)
           = of_int (sum_Z (Final.points_given
                              <$> surviving
                                    (apply_filters
                                       (Preprocessor2.preprocess_data
                                          contestants_df votes_df cultural_df
                                          top3_only final_only)
                                       min_participations selected).1))).
Proof.
  assert (recognised "No weights") as Hm by (by left).
  split.
  - rewrite main_unfold. cbv zeta.
    rewrite calculate_weighted_votes_recognised by done.
    eexists. split; [done|]. cbn [Preprocessor.eurovision_votes frame_rows].
    rewrite drop_self_loops_fmap.
    rewrite (list_fmap_ext _ (fun r => (r, of_int (Final.points_given r))) _)
      by (by intros).
    apply groupby_sum_none_total.
  - rewrite main2_unfold. cbv zeta.
    rewrite calculate_weighted_votes_recognised by done.
    eexists. split; [done|]. cbn [Preprocessor2.eurovision_votes frame_rows].
    rewrite drop_zero_edges_weights, column_sum_drop_zero, drop_self_loops_fmap.
    rewrite (list_fmap_ext _ (fun r => (r, of_int (Final.points_given r))) _)
      by (by intros).
    apply groupby_sum_none_total.
Qed.

(** ** The divisor of 'Divide by total points' *)

Lemma preprocess_data_final contestants_df votes_df :
  (Preprocessor.preprocess_data contestants_df votes_df).1
  = Preprocessor.final_row
      (Preprocessor.participation_map
         (Preprocessor.preprocess_data contestants_df votes_df).2)
      <$> Preprocessor.merged contestants_df votes_df.
Proof. done. Qed.

Lemma preprocess_data2_final contestants_df votes_df cultural_df top3_only final_only :
  (Preprocessor2.preprocess_data contestants_df votes_df cultural_df
                                 top3_only final_only).1
  = Preprocessor2.final_row
      (Preprocessor.participation_map
         (Preprocessor2.preprocess_data contestants_df votes_df cultural_df
                                        top3_only final_only).2)
      <$> Preprocessor2.merged contestants_df votes_df top3_only final_only.
Proof. done. Qed.

(** C2, as the spec words it, fails: on the sample votes France gives 10
    points to Germany in the 2021 final and awards 13 points in that round,
    yet the weighted value of that record is 10/40 (Germany's [points_final]
    is 40), not 10/13. *)
Lemma by_total_is_not_share_of_awarded_points :
  exists r w rows,
    calculate_weighted_votes
      (Unweighted (Preprocessor.preprocess_data Sample.contestants Sample.votes).1)
      "Divide by total points" = Weighted rows
    /\ (r, w) ∈ rows
    /\ finite_value w = Some (1 # 4)%Q
    /\ finite_value
         (true_divide (Final.points_given r)
            (Some (points_awarded_by (set_round <$> Sample.votes) (Final.year r)
                                     (Final.round r) (Final.from_country r))))
       = Some (10 # 13)%Q.
Proof.
  eexists _, _, _. split; [vm_compute; reflexivity|].
  split; [apply list_elem_of_here|]. split; vm_compute; reflexivity.
Qed.

(** C2, amended: in both pipelines, under 'Divide by total points' the
    weighted points of every merged vote record are its raw points (the
    [total_points] of the vote) divided by its [total_points_overall], that
    is by [points_final] when its round is 'final' and by [points_sf]
    otherwise. *)
Theorem by_total_divides_by_total_points_overall contestants_df votes_df cultural_df
    (top3_only final_only : bool) :
  calculate_weighted_votes
    (Unweighted (Preprocessor.preprocess_data contestants_df votes_df).1)
    "Divide by total points"
  = Weighted
      ((fun m =>
          (Preprocessor.final_row
             (Preprocessor.participation_map
                (Preprocessor.preprocess_data contestants_df votes_df).2) m,
           true_divide (Merged.total_points m)
             (if decide (Merged.round m = "final") then Merged.points_final m
              else Merged.points_sf m)))
         <$> Preprocessor.merged contestants_df votes_df)
  /\ calculate_weighted_votes
       (Unweighted (Preprocessor2.preprocess_data contestants_df votes_df cultural_df
                                                  top3_only final_only).1)
       "Divide by total points"
     = Weighted
         ((fun m =>
             (Preprocessor2.final_row
                (Preprocessor.participation_map
                   (Preprocessor2.preprocess_data contestants_df votes_df cultural_df
                                                  top3_only final_only).2) m,
              true_divide (Merged.total_points m)
                (if decide (Merged.round m = "final") then Merged.points_final m
                 else Merged.points_sf m)))
            <$> Preprocessor2.merged contestants_df votes_df top3_only final_only).
Proof.
  assert (recognised "Divide by total points") as Hm by (right; right; by left).
  split.
  - rewrite calculate_weighted_votes_recognised by done.
    cbn [frame_rows]. rewrite preprocess_data_final at 1.
    by rewrite <-list_fmap_compose.
  - rewrite calculate_weighted_votes_recognised by done.
    cbn [frame_rows]. rewrite preprocess_data2_final at 1.
    by rewrite <-list_fmap_compose.
Qed.

(** ** What depends on [points_sf] and [points_final] *)

Lemma fmap_bind {A B C} (h : B -> C) (f : A -> list B) (l : list A) :
  h <$> (l ≫= f) = l ≫= (fun x => h <$> f x).
Proof.
  induction l as [|x l IH]; [done|].
  by rewrite !bind_cons, fmap_app, IH.
Qed.

Lemma merge_clear_points (votes_df : list Vote.t) contestants_df :
  merge (clear_points <$> votes_df) contestants_df
  = clear_merged <$> merge votes_df contestants_df.
Proof.
  unfold merge. rewrite list_fmap_bind, fmap_bind.
  apply list_bind_ext; [|done]. intros v.
  unfold compose. cbn [clear_points Vote.year Vote.to_country_id].
  destruct (filter _ contestants_df) as [|c cs]; [done|].
  by rewrite <-list_fmap_compose.
Qed.

Lemma set_round_clear_points (votes_df : list Vote.t) :
  set_round <$> (clear_points <$> votes_df) = clear_points <$> (set_round <$> votes_df).
Proof. by rewrite <-!list_fmap_compose. Qed.

Lemma filtered_votes_clear_points (votes_df : list Vote.t) top3_only final_only :
  Preprocessor2.filtered_votes (clear_points <$> votes_df) top3_only final_only
  = clear_points <$> Preprocessor2.filtered_votes votes_df top3_only final_only.
Proof.
  unfold Preprocessor2.filtered_votes. rewrite set_round_clear_points.
  destruct top3_only, final_only; by rewrite ?filter_fmap.
Qed.

Section blanked_votes.
Context (contestants_df : list Contestant.t) (votes1 votes2 : list Vote.t).
Context (Hsame : clear_points <$> votes1 = clear_points <$> votes2).

Lemma merged_blanked :
  clear_merged <$> Preprocessor.merged contestants_df votes1
  = clear_merged <$> Preprocessor.merged contestants_df votes2.
Proof.
  unfold Preprocessor.merged.
  by rewrite <-!merge_clear_points, <-!set_round_clear_points, Hsame.
Qed.

Lemma merged2_blanked top3_only final_only :
  clear_merged <$> Preprocessor2.merged contestants_df votes1 top3_only final_only
  = clear_merged <$> Preprocessor2.merged contestants_df votes2 top3_only final_only.
Proof.
  unfold Preprocessor2.merged.
  by rewrite <-!merge_clear_points, <-!filtered_votes_clear_points, Hsame.
Qed.

Lemma fmap_through_blanked {B} (f : Merged.t -> B) (l1 l2 : list Merged.t) :
  (forall m, f (clear_merged m) = f m) ->
  clear_merged <$> l1 = clear_merged <$> l2 -> f <$> l1 = f <$> l2.
Proof.
  intros Hf Hl.
  rewrite <-(list_fmap_ext (f ∘ clear_merged) f l1) by (intros; apply Hf).
  rewrite <-(list_fmap_ext (f ∘ clear_merged) f l2) by (intros; apply Hf).
  by rewrite !list_fmap_compose, Hl.
Qed.

Lemma preprocess_data_nodes_blanked :
  (Preprocessor.preprocess_data contestants_df votes1).2
  = (Preprocessor.preprocess_data contestants_df votes2).2.
Proof.
  unfold Preprocessor.preprocess_data, Preprocessor.unique_years. simpl.
  by rewrite (fmap_through_blanked Preprocessor.unique_row _ _ (fun _ => eq_refl)
                merged_blanked).
Qed.

Lemma preprocess_data_final_blanked :
  forget_total <$> (Preprocessor.preprocess_data contestants_df votes1).1
  = forget_total <$> (Preprocessor.preprocess_data contestants_df votes2).1.
Proof.
  rewrite !preprocess_data_final, preprocess_data_nodes_blanked.
  rewrite <-!list_fmap_compose.
  by apply fmap_through_blanked; [|apply merged_blanked].
Qed.

Lemma preprocess_data2_nodes_blanked cultural_df top3_only final_only :
  (Preprocessor2.preprocess_data contestants_df votes1 cultural_df
                                 top3_only final_only).2
  = (Preprocessor2.preprocess_data contestants_df votes2 cultural_df
                                   top3_only final_only).2.
Proof.
  unfold Preprocessor2.preprocess_data, Preprocessor2.unique_years. simpl.
  by rewrite (fmap_through_blanked Preprocessor2.unique_row _ _ (fun _ => eq_refl)
                (merged2_blanked top3_only final_only)).
Qed.

Lemma preprocess_data2_final_blanked cultural_df top3_only final_only :
  forget_total <$> (Preprocessor2.preprocess_data contestants_df votes1 cultural_df
                                                  top3_only final_only).1
  = forget_total <$> (Preprocessor2.preprocess_data contestants_df votes2 cultural_df
                                                    top3_only final_only).1.
Proof.
  rewrite !preprocess_data2_final, preprocess_data2_nodes_blanked.
  rewrite <-!list_fmap_compose.
  by apply fmap_through_blanked; [|apply merged2_blanked].
Qed.
End blanked_votes.

Section blanked_total.
Context {X Y : Type}.
Implicit Types (final_df : list (Final.t X)) (nodes : list (Node.t Y)).
Implicit Types (rows : list (Final.t X * xnum)).

Lemma apply_filters_forget_total final_df nodes min_participations selected :
  forget_total <$> (apply_filters (final_df, nodes) min_participations selected).1
  = (apply_filters (forget_total <$> final_df, nodes) min_participations selected).1.
Proof.
  unfold apply_filters, filter_countries, known_endpoints.
  cbn [fst]. by rewrite !filter_fmap.
Qed.

Lemma apply_filters_blanked final_df1 final_df2 nodes min_participations selected :
  forget_total <$> final_df1 = forget_total <$> final_df2 ->
  forget_total <$> (apply_filters (final_df1, nodes) min_participations selected).1
  = forget_total <$> (apply_filters (final_df2, nodes) min_participations selected).1.
Proof. intros H. by rewrite !apply_filters_forget_total, H. Qed.

Lemma groupby_sum_keyed rows : groupby_sum rows = sum_by_key (keyed rows).
Proof.
  unfold groupby_sum, sum_by_key, keyed. rewrite <-!list_fmap_compose.
  apply list_fmap_ext. intros _ k _. simpl. f_equal.
  by rewrite filter_fmap, <-list_fmap_compose.
Qed.

Lemma keyed_drop_self_loops rows :
  keyed (drop_self_loops rows) = filter (fun kv => kv.1.1 <> kv.1.2) (keyed rows).
Proof. unfold keyed, drop_self_loops. by rewrite filter_fmap. Qed.

Lemma edge_columns_keyed rows :
  edge_columns rows = (fun kv => Edge.mk kv.1.1 kv.1.2 kv.2) <$> keyed rows.
Proof. unfold edge_columns, keyed. by rewrite <-list_fmap_compose. Qed.

(** Without a division by [total_points] the new column does not read that
    cell. *)
Lemma weight_of_forget_total m (r : Final.t X) :
  m <> "Divide by total points" -> m <> "Divide by both" -> recognised m ->
  weight_of m (forget_total r) = weight_of m r.
Proof.
  unfold weight_of, recognised. intros H1 H2 Hm.
  repeat case_decide; naive_solver.
Qed.

Lemma keyed_weighted_blanked m final_df1 final_df2 :
  m <> "Divide by total points" -> m <> "Divide by both" -> recognised m ->
  forget_total <$> final_df1 = forget_total <$> final_df2 ->
  keyed ((fun r => (r, weight_of m r)) <$> final_df1)
  = keyed ((fun r => (r, weight_of m r)) <$> final_df2).
Proof.
  intros H1 H2 Hm Hsame. unfold keyed. rewrite <-!list_fmap_compose.
  set (f := fun r : Final.t X =>
              ((Final.from_country r, Final.to_country r), weight_of m r)).
  change (f <$> final_df1 = f <$> final_df2).
  assert (forall l : list (Final.t X), f <$> l = f <$> (forget_total <$> l)) as Hf.
  { intros l. rewrite <-list_fmap_compose. apply list_fmap_ext. intros _ r _.
    unfold f, compose. by rewrite weight_of_forget_total. }
  by rewrite (Hf final_df1), (Hf final_df2), Hsame.
Qed.
End blanked_total.

(** C1, as stated, fails: the two sample vote frames differ in one
    [points_final] cell only, and under 'Divide by total points' the first
    pipeline gives the edge (FR, DE) the weight 9/20 for one and 7/10 for the
    other. *)
Lemma total_points_overall_is_observable :
  clear_points <$> Sample.votes_rescored = clear_points <$> Sample.votes
  /\ exists o1 o2,
       Preprocessor.main Sample.contestants Sample.votes
                         "Divide by total points" 1 ["Germany"; "France"] = Ok o1
       /\ Preprocessor.main Sample.contestants Sample.votes_rescored
                            "Divide by total points" 1 ["Germany"; "France"] = Ok o2
       /\ (finite_value ∘ Edge.weighted_points <$> Preprocessor.eurovision_votes o1)
          = [None; Some (9 # 20)%Q]
       /\ (finite_value ∘ Edge.weighted_points <$> Preprocessor.eurovision_votes o2)
          = [None; Some (7 # 10)%Q]
       /\ o1 <> o2.
Proof.
  split; [reflexivity|].
  eexists _, _. split; [vm_compute; reflexivity|]. split; [vm_compute; reflexivity|].
  split; [vm_compute; reflexivity|]. split; [vm_compute; reflexivity|].
  intros H.
  apply (f_equal (fun o => finite_value ∘ Edge.weighted_points
                             <$> Preprocessor.eurovision_votes o)) in H.
  vm_compute in H. discriminate H.
Qed.

(** C1, amended: when two vote frames differ only in the cells [points_sf]
    and [points_final], both pipelines produce the same node list under every
    setting, and the same edge lists under every setting whose weighting
    option is neither 'Divide by total points' nor 'Divide by both'.  (Under
    these two options [total_points_overall] is the divisor.) *)
Theorem points_cells_unobserved_without_total_division
    contestants_df votes1 votes2 cultural_df (top3_only final_only : bool)
    weighting_method min_participations selected
    (Hsame : clear_points <$> votes1 = clear_points <$> votes2) :
  (node_list_of Preprocessor.country_counts_df
     (Preprocessor.main contestants_df votes1 weighting_method min_participations selected)
   = node_list_of Preprocessor.country_counts_df
       (Preprocessor.main contestants_df votes2 weighting_method min_participations selected)
   /\ node_list_of Preprocessor2.country_counts_df
        (Preprocessor2.main contestants_df votes1 cultural_df top3_only final_only
                            weighting_method min_participations selected)
      = node_list_of Preprocessor2.country_counts_df
          (Preprocessor2.main contestants_df votes2 cultural_df top3_only final_only
                              weighting_method min_participations selected))
  /\ (weighting_method <> "Divide by total points" ->
      weighting_method <> "Divide by both" ->
      Preprocessor.main contestants_df votes1 weighting_method min_participations selected
      = Preprocessor.main contestants_df votes2 weighting_method min_participations selected
      /\ Preprocessor2.main contestants_df votes1 cultural_df top3_only final_only
                            weighting_method min_participations selected
         = Preprocessor2.main contestants_df votes2 cultural_df top3_only final_only
                              weighting_method min_participations selected).
Proof.
  pose proof (preprocess_data_nodes_blanked contestants_df votes1 votes2 Hsame) as Hn.
  pose proof (preprocess_data_final_blanked contestants_df votes1 votes2 Hsame) as Hf.
  pose proof (preprocess_data2_nodes_blanked contestants_df votes1 votes2 Hsame
                cultural_df top3_only final_only) as Hn2.
  pose proof (preprocess_data2_final_blanked contestants_df votes1 votes2 Hsame
                cultural_df top3_only final_only) as Hf2.
  rewrite !main_unfold, !main2_unfold. cbv zeta.
  destruct (Preprocessor.preprocess_data contestants_df votes1) as [fd1 nd1].
  destruct (Preprocessor.preprocess_data contestants_df votes2) as [fd2 nd2].
  destruct (Preprocessor2.preprocess_data contestants_df votes1 _ _ _) as [gd1 md1].
  destruct (Preprocessor2.preprocess_data contestants_df votes2 _ _ _) as [gd2 md2].
  simpl in Hn, Hf, Hn2, Hf2. subst nd2 md2.
  destruct (decide (recognised weighting_method)) as [Hm|Hm].
  - rewrite !calculate_weighted_votes_recognised by done. cbn [frame_rows node_list_of].
    rewrite ?apply_filters_nodes. split; [done|]. intros H1 H2.
    rewrite !groupby_sum_keyed, !edge_columns_keyed, !keyed_drop_self_loops.
    rewrite (keyed_weighted_blanked weighting_method _ _ H1 H2 Hm
               (apply_filters_blanked fd1 fd2 nd1 min_participations selected Hf)).
    rewrite (keyed_weighted_blanked weighting_method _ _ H1 H2 Hm
               (apply_filters_blanked gd1 gd2 md1 min_participations selected Hf2)).
    by rewrite ?apply_filters_nodes.
  - by rewrite !calculate_weighted_votes_other.
Qed.

Lemma points_cells_unobserved_without_total_division_witness :
  clear_points <$> Sample.votes_rescored = clear_points <$> Sample.votes
  /\ "Divide by participation count" <> "Divide by total points"
  /\ "Divide by participation count" <> "Divide by both"
  /\ Preprocessor.main Sample.contestants Sample.votes_rescored
                       "Divide by participation count" 1 ["Germany"; "France"]
     = Preprocessor.main Sample.contestants Sample.votes
                         "Divide by participation count" 1 ["Germany"; "France"].
Proof.
  split; [reflexivity|]. split; [done|]. split; [done|].
  apply (proj2 (points_cells_unobserved_without_total_division
                  Sample.contestants Sample.votes_rescored Sample.votes Sample.cultural
                  false false "Divide by participation count" 1 ["Germany"; "France"]
                  eq_refl)); done.
Defined.

(** ** Distinct rows *)

Section distinct_rows.
Context {A B : Type} `{EqDecision A, EqDecision B}.

Lemma filter_ext_elem (P Q : A -> Prop) `{!forall x, Decision (P x)}
    `{!forall x, Decision (Q x)} (l : list A) :
  (forall x, x ∈ l -> P x <-> Q x) -> filter P l = filter Q l.
Proof.
  induction l as [|x l IH]; intros HPQ; [done|].
  rewrite !filter_cons.
  rewrite IH by (intros y Hy; apply HPQ; by apply list_elem_of_further).
  pose proof (HPQ x (list_elem_of_here _ _)).
  destruct (decide (P x)), (decide (Q x)); naive_solver.
Qed.

(** A projection that separates the rows of a frame keeps their number of
    distinct values. *)
Lemma drop_duplicates_fmap_inj (h : A -> B) (l : list A) :
  (forall x y, x ∈ l -> y ∈ l -> h x = h y -> x = y) ->
  drop_duplicates (h <$> l) = h <$> drop_duplicates l.
Proof.
  induction l as [|x l IH]; intros Hinj; [done|].
  rewrite fmap_cons. simpl. f_equal.
  rewrite IH.
  2:{ intros y z Hy Hz. apply Hinj; by apply list_elem_of_further. }
  rewrite filter_fmap. f_equal. apply filter_ext_elem.
  intros y Hy. rewrite elem_of_drop_duplicates in Hy. split.
  - intros Hne Heq. apply Hne. by rewrite Heq.
  - intros Hne Heq. apply Hne, Hinj; [by apply list_elem_of_further| |done].
    apply list_elem_of_here.
Qed.

Lemma drop_duplicates_twice (x : A) (l : list A) :
  drop_duplicates (x :: x :: l) = drop_duplicates (x :: l).
Proof.
  simpl. f_equal. rewrite filter_cons, decide_False by (by intros ?).
  rewrite list_filter_filter. apply list_filter_iff. naive_solver.
Qed.

Lemma drop_duplicates_replicate (n : nat) (x : A) (l : list A) :
  drop_duplicates (replicate (S n) x ++ l) = drop_duplicates (x :: l).
Proof.
  induction n as [|n IH]; [done|].
  change (replicate (S (S n)) x ++ l)%list with (x :: x :: (replicate n x ++ l))%list.
  rewrite drop_duplicates_twice. apply IH.
Qed.

(** Rows that a join repeats count once. *)
Lemma drop_duplicates_bind {C} (g : C -> list B) (key : B -> A) (keyv : C -> A)
    (l : list C) :
  (forall c, g c <> []) -> (forall c b, b ∈ g c -> key b = keyv c) ->
  drop_duplicates (key <$> (l ≫= g)) = drop_duplicates (keyv <$> l).
Proof.
  intros Hne Hkey. induction l as [|c l IH]; [done|].
  rewrite bind_cons, fmap_app, fmap_cons.
  assert (key <$> g c = replicate (length (g c)) (keyv c)) as ->.
  { specialize (Hkey c). induction (g c) as [|b bs IHb]; [done|].
    rewrite fmap_cons. simpl. f_equal.
    - apply Hkey, list_elem_of_here.
    - apply IHb. intros b' Hb'. by apply Hkey, list_elem_of_further. }
  specialize (Hne c). destruct (g c) as [|b bs]; [done|].
  cbn [length]. rewrite drop_duplicates_replicate. simpl. by rewrite IH.
Qed.

Lemma first_valid_filter {V} (f : A -> option V) (P : A -> Prop)
    `{!forall x, Decision (P x)} (l : list A) :
  (forall x, ~ P x -> f x = None) ->
  first_valid (f <$> filter P l) = first_valid (f <$> l).
Proof.
  intros HP. induction l as [|x l IH]; [done|].
  rewrite filter_cons, fmap_cons. destruct (decide (P x)) as [Hx|Hx].
  - rewrite fmap_cons. simpl. by destruct (f x).
  - simpl. by rewrite (HP x Hx).
Qed.

(** The first non-null cell of a column is found on a first occurrence of
    its row. *)
Lemma first_valid_drop_duplicates {V} (f : A -> option V) (l : list A) :
  first_valid (f <$> drop_duplicates l) = first_valid (f <$> l).
Proof.
  induction l as [|x l IH]; [done|].
  simpl. destruct (f x) eqn:Hfx; [done|].
  rewrite first_valid_filter; [done|].
  intros y Hy. apply dec_stable in Hy. by subst.
Qed.
End distinct_rows.

Lemma filter_all {A} (P : A -> Prop) `{!forall x, Decision (P x)} (l : list A) :
  (forall x, x ∈ l -> P x) -> filter P l = l.
Proof.
  induction l as [|x l IH]; intros HP; [done|].
  rewrite filter_cons_True by apply HP, list_elem_of_here.
  f_equal. apply IH. intros y Hy. by apply HP, list_elem_of_further.
Qed.

Lemma filter_none {A} (P : A -> Prop) `{!forall x, Decision (P x)} (l : list A) :
  (forall x, x ∈ l -> ~ P x) -> filter P l = [].
Proof.
  induction l as [|x l IH]; intros HP; [done|].
  rewrite filter_cons_False by apply HP, list_elem_of_here.
  apply IH. intros y Hy. by apply HP, list_elem_of_further.
Qed.

Lemma filter_bind {A B} (P : B -> Prop) `{!forall y, Decision (P y)}
    (g : A -> list B) (l : list A) :
  filter P (l ≫= g) = l ≫= (fun x => filter P (g x)).
Proof.
  induction l as [|x l IH]; [done|].
  by rewrite !bind_cons, filter_app, IH.
Qed.

Lemma filter_at_most_one {A K} `{EqDecision K} (f : A -> K) (l : list A) (k : K) :
  NoDup (f <$> l) -> (length (filter (fun x => f x = k) l) <= 1)%nat.
Proof.
  induction l as [|x l IH]; [simpl; lia|].
  rewrite fmap_cons, NoDup_cons. intros [Hx Hnd].
  rewrite filter_cons. destruct (decide (f x = k)) as [<-|]; [|by apply IH].
  assert (filter (fun y => f y = f x) l = []) as ->; [|simpl; lia].
  destruct (filter _ l) as [|y ys] eqn:Hfl; [done|].
  assert (y ∈ filter (fun y => f y = f x) l) as [Hy Hin]%list_elem_of_filter
    by (rewrite Hfl; apply list_elem_of_here).
  destruct Hx. rewrite <-Hy. by apply list_elem_of_fmap_2.
Qed.

Lemma NoDup_fmap_filter {A K} (f : A -> K) (P : A -> Prop) `{!forall x, Decision (P x)}
    (l : list A) :
  NoDup (f <$> l) -> NoDup (f <$> filter P l).
Proof.
  induction l as [|x l IH]; [done|].
  rewrite fmap_cons, NoDup_cons, filter_cons. intros [Hx Hnd].
  destruct (decide (P x)); [|by apply IH].
  rewrite fmap_cons, NoDup_cons. split; [|by apply IH].
  intros (y & Hy & [_ Hin]%list_elem_of_filter)%list_elem_of_fmap.
  apply Hx. rewrite Hy. by apply list_elem_of_fmap_2.
Qed.

(** ** The node list of the second pipeline *)

Section second_node_list.
Implicit Types (merged_df : list Merged.t) (k : string).

(** The group of a country in [unique_years_df]. *)
Lemma unique_years_group merged_df k :
  filter (fun u => u.2 = k) (Preprocessor2.unique_years merged_df)
  = drop_duplicates
      (Preprocessor2.unique_row
         <$> filter (fun m => Merged.to_country_id m = k) merged_df).
Proof.
  unfold Preprocessor2.unique_years.
  by rewrite <-drop_duplicates_filter, filter_fmap.
Qed.

Lemma elem_of_country_counts merged_df n :
  n ∈ Preprocessor2.country_counts (Preprocessor2.unique_years merged_df) ->
  let group := drop_duplicates
                 (Preprocessor2.unique_row
                    <$> filter (fun m => Merged.to_country_id m = Node.country_id n)
                               merged_df) in
  Node.country_name n = first_valid ((fun u => u.1.2) <$> group)
  /\ Node.count n = Z.of_nat (length group)
  /\ Node.country_id n ∈ Merged.to_country_id <$> merged_df.
Proof.
  unfold Preprocessor2.country_counts.
  intros (k & -> & Hk)%list_elem_of_fmap. cbn [Node.country_id Node.country_name Node.count].
  rewrite unique_years_group. split; [done|]. split; [done|].
  apply elem_of_group_keys in Hk.
  apply list_elem_of_fmap in Hk as (u & -> & Hu).
  apply elem_of_drop_duplicates, list_elem_of_fmap in Hu as (m & -> & Hm).
  by apply (list_elem_of_fmap_2 Merged.to_country_id).
Qed.

Lemma country_counts_ids merged_df :
  Node.country_id
    <$> Preprocessor2.country_counts (Preprocessor2.unique_years merged_df)
  = group_keys String.leb (snd <$> Preprocessor2.unique_years merged_df).
Proof.
  unfold Preprocessor2.country_counts. rewrite <-list_fmap_compose.
  apply list_fmap_id.
Qed.

Lemma elem_of_merge_cultural nodes cultural_df n :
  n ∈ Preprocessor2.merge_cultural nodes cultural_df ->
  exists n0, n0 ∈ nodes /\ Node.country_id n = Node.country_id n0
             /\ Node.country_name n = Node.country_name n0
             /\ Node.count n = Node.count n0.
Proof.
  unfold Preprocessor2.merge_cultural.
  intros (n0 & Hn & Hn0)%list_elem_of_bind. exists n0. split; [done|].
  destruct (filter _ (Cultural.rows cultural_df)) as [|c cs].
  - by apply list_elem_of_singleton in Hn as ->.
  - by apply list_elem_of_fmap in Hn as (c' & -> & _).
Qed.

(** With one row per country in the cultural file the left join adds no
    row. *)
Lemma merge_cultural_ids nodes cultural_df :
  NoDup (Cultural.country_id <$> Cultural.rows cultural_df) ->
  Node.country_id <$> Preprocessor2.merge_cultural nodes cultural_df
  = Node.country_id <$> nodes.
Proof.
  intros Hnd. unfold Preprocessor2.merge_cultural.
  induction nodes as [|n nodes IH]; [done|].
  rewrite bind_cons, fmap_app, IH, fmap_cons.
  pose proof (filter_at_most_one Cultural.country_id (Cultural.rows cultural_df)
                (Node.country_id n) Hnd) as Hlen.
  destruct (filter _ (Cultural.rows cultural_df)) as [|c [|c' cs]];
    [done|done|simpl in Hlen; lia].
Qed.

(** Counting the distinct rows of a country with or without the column
    [to_country_id], which is constant on them. *)
Lemma group_length_without_id merged_df k :
  length (drop_duplicates
            (Preprocessor2.unique_row
               <$> filter (fun m => Merged.to_country_id m = k) merged_df))
  = length (drop_duplicates
              (Preprocessor.unique_row
                 <$> filter (fun m => Merged.to_country_id m = k) merged_df)).
Proof.
  set (rows := filter _ merged_df).
  rewrite (list_fmap_ext Preprocessor.unique_row (fst ∘ Preprocessor2.unique_row) rows)
    by done.
  rewrite list_fmap_compose, (drop_duplicates_fmap_inj fst), length_fmap; [done|].
  intros u1 u2 (m1 & -> & [Hm1 _]%list_elem_of_filter)%list_elem_of_fmap
               (m2 & -> & [Hm2 _]%list_elem_of_filter)%list_elem_of_fmap.
  unfold Preprocessor2.unique_row. simpl. intros [= -> -> -> ->].
  by rewrite Hm1, Hm2.
Qed.

(** When year and round determine the two labels of a country, its distinct
    rows are as many as its distinct (year, round) pairs. *)
Lemma group_length_year_round (rows : list Merged.t) :
  labels_determined rows ->
  length (drop_duplicates (Preprocessor.unique_row <$> rows))
  = length (drop_duplicates ((fun m => (Merged.year m, Merged.round m)) <$> rows)).
Proof.
  intros Hfd.
  rewrite (list_fmap_ext (fun m => (Merged.year m, Merged.round m))
             ((fun u => (u.1.1.1, u.1.1.2)) ∘ Preprocessor.unique_row) rows)
    by done.
  rewrite list_fmap_compose,
    (drop_duplicates_fmap_inj (fun u : Z * string * string * option string =>
                                 (u.1.1.1, u.1.1.2))), length_fmap; [done|].
  intros u1 u2 (m1 & -> & Hm1)%list_elem_of_fmap (m2 & -> & Hm2)%list_elem_of_fmap.
  unfold Preprocessor.unique_row. simpl. intros [= Hy Hr].
  destruct (Hfd m1 m2 Hm1 Hm2 Hy Hr) as [-> ->]. by rewrite Hy, Hr.
Qed.

Lemma merge_rows_nonempty (v : Vote.t) contestants_df :
  match filter (fun c => Contestant.year c = Vote.year v
                         /\ Contestant.to_country_id c = Vote.to_country_id v)
               contestants_df with
  | [] => [merged_row v None]
  | cs => (fun c => merged_row v (Some (Contestant.to_country c))) <$> cs
  end <> [].
Proof. by destruct (filter _ contestants_df). Qed.

Lemma merge_rows_of_vote {B} (f : Merged.t -> B) (fv : Vote.t -> B) (v : Vote.t)
    contestants_df m :
  (forall name, f (merged_row v name) = fv v) ->
  m ∈ match filter (fun c => Contestant.year c = Vote.year v
                             /\ Contestant.to_country_id c = Vote.to_country_id v)
                   contestants_df with
      | [] => [merged_row v None]
      | cs => (fun c => merged_row v (Some (Contestant.to_country c))) <$> cs
      end ->
  f m = fv v.
Proof.
  intros Hf. destruct (filter _ contestants_df) as [|c cs].
  - by intros ->%list_elem_of_singleton.
  - by intros (c' & -> & _)%list_elem_of_fmap.
Qed.

(** The rows of a country in the merged frame come from its votes. *)
Lemma merge_filter_destination (votes_df : list Vote.t) contestants_df k :
  filter (fun m => Merged.to_country_id m = k) (merge votes_df contestants_df)
  = merge (filter (fun v => Vote.to_country_id v = k) votes_df) contestants_df.
Proof.
  unfold merge. induction votes_df as [|v votes_df IH]; [done|].
  rewrite bind_cons, filter_app, IH, filter_cons.
  set (rows := match filter _ contestants_df with [] => _ | _ => _ end).
  assert (forall m, m ∈ rows -> Merged.to_country_id m = Vote.to_country_id v) as Hid.
  { intros m. by apply (merge_rows_of_vote Merged.to_country_id Vote.to_country_id). }
  destruct (decide (Vote.to_country_id v = k)) as [Hk|Hk].
  - rewrite bind_cons. f_equal. apply filter_all.
    intros m Hm. by rewrite (Hid m Hm).
  - rewrite filter_none; [done|].
    intros m Hm. by rewrite (Hid m Hm).
Qed.

Lemma merge_year_round (votes_df : list Vote.t) contestants_df :
  drop_duplicates ((fun m => (Merged.year m, Merged.round m))
                     <$> merge votes_df contestants_df)
  = drop_duplicates ((fun v => (Vote.year v, Vote.round v)) <$> votes_df).
Proof.
  unfold merge. apply drop_duplicates_bind.
  - intros v. apply merge_rows_nonempty.
  - intros v m.
    by apply (merge_rows_of_vote (fun m => (Merged.year m, Merged.round m))
                (fun v => (Vote.year v, Vote.round v))).
Qed.
End second_node_list.

Lemma apply_filters_nodes_subseteq {X Y} (pre : list (Final.t X) * list (Node.t Y))
    min_participations selected n :
  n ∈ (apply_filters pre min_participations selected).2 -> n ∈ pre.2.
Proof.
  rewrite apply_filters_nodes. unfold selected_nodes, min_count_nodes.
  by intros [_ [_ ?]%list_elem_of_filter]%list_elem_of_filter.
Qed.

Lemma elem_of_preprocess_data2_nodes contestants_df votes_df cultural_df
    top3_only final_only n :
  n ∈ (Preprocessor2.preprocess_data contestants_df votes_df cultural_df
                                     top3_only final_only).2 ->
  let rows := filter (fun m => Merged.to_country_id m = Node.country_id n)
                     (Preprocessor2.merged contestants_df votes_df top3_only final_only) in
  Node.country_name n = first_valid (Merged.to_country_y <$> rows)
  /\ Node.count n = Z.of_nat (length (drop_duplicates (Preprocessor.unique_row <$> rows)))
  /\ Node.country_id n
     ∈ Vote.to_country_id <$> Preprocessor2.filtered_votes votes_df top3_only final_only.
Proof.
  unfold Preprocessor2.preprocess_data. cbn [snd].
  intros (n0 & Hn0 & Hid & Hname & Hcount)%elem_of_merge_cultural.
  apply elem_of_country_counts in Hn0 as (Hname0 & Hcount0 & Hin).
  rewrite Hid, Hname, Hcount. split; [|split].
  - rewrite Hname0, first_valid_drop_duplicates, <-list_fmap_compose. done.
  - by rewrite Hcount0, group_length_without_id.
  - apply list_elem_of_fmap in Hin as (m & -> & Hm).
    unfold Preprocessor2.merged, merge in Hm.
    apply list_elem_of_bind in Hm as (v & Hm & Hv).
    rewrite (merge_rows_of_vote Merged.to_country_id Vote.to_country_id v _ m
               (fun _ => eq_refl) Hm).
    by apply list_elem_of_fmap_2.
Qed.

(** C6, as stated, fails: the two sample votes for Germany belong to one
    (year, round) pair, but the votes file spells the destination in two
    ways, and the node of Germany gets the count 2. *)
Lemma participation_count_counts_labels :
  exists o n,
    Preprocessor2.main Sample.contestants Sample.votes_relabelled Sample.cultural
                       false false "No weights" 1 ["Germany"] = Ok o
    /\ n ∈ Preprocessor2.country_counts_df o
    /\ Node.country_id n = "DE"
    /\ Node.count n = 2
    /\ participations
         (Preprocessor2.filtered_votes Sample.votes_relabelled false false) "DE" = 1.
Proof.
  eexists _, _. split; [vm_compute; reflexivity|].
  split; [apply list_elem_of_here|]. by split; [|split].
Qed.

(** C6, amended: in the second pipeline the [count] of every row of the node
    list is the number of distinct (year, round, to_country_x, to_country_y)
    combinations among the merged rows with that destination, taken after the
    filters [top3_only] and [final_only]; it equals the number of distinct
    (year, round) pairs in which the country is a destination of the filtered
    votes whenever year and round determine the two labels on those rows.
    Neither [min_participations] nor the country selection enters the
    count. *)
Theorem participation_count_is_number_of_distinct_rows
    contestants_df votes_df cultural_df (top3_only final_only : bool)
    weighting_method min_participations selected o n
    (Hrun : Preprocessor2.main contestants_df votes_df cultural_df top3_only final_only
                               weighting_method min_participations selected = Ok o)
    (Hn : n ∈ Preprocessor2.country_counts_df o) :
  let rows := filter (fun m => Merged.to_country_id m = Node.country_id n)
                     (Preprocessor2.merged contestants_df votes_df top3_only final_only) in
  Node.count n = Z.of_nat (length (drop_duplicates (Preprocessor.unique_row <$> rows)))
  /\ (labels_determined rows ->
      Node.count n
      = participations (Preprocessor2.filtered_votes votes_df top3_only final_only)
                       (Node.country_id n)).
Proof.
  revert Hrun Hn. open_main Hw. intros Hn%apply_filters_nodes_subseteq.
  apply elem_of_preprocess_data2_nodes in Hn as (_ & Hcount & _).
  split; [done|]. intros Hfd.
  rewrite Hcount, (group_length_year_round _ Hfd). unfold participations.
  unfold Preprocessor2.merged.
  by rewrite merge_filter_destination, merge_year_round.
Qed.

Lemma participation_count_is_number_of_distinct_rows_witness :
  exists o n,
    Preprocessor2.main Sample.contestants Sample.votes Sample.cultural false false
                       "No weights" 2 ["Germany"] = Ok o
    /\ n ∈ Preprocessor2.country_counts_df o
    /\ Node.country_id n = "DE"
    /\ Node.count n = 2
    /\ Node.count n
       = participations (Preprocessor2.filtered_votes Sample.votes false false) "DE".
Proof.
  eexists _, _. split; [vm_compute; reflexivity|].
  split; [apply list_elem_of_here|]. split; [reflexivity|]. split; [reflexivity|].
  refine (proj2 (participation_count_is_number_of_distinct_rows
                   Sample.contestants Sample.votes Sample.cultural false false
                   "No weights" 2 ["Germany"] _ _ _ _) _).
  - vm_compute. reflexivity.
  - apply list_elem_of_here.
  - intros m1 m2 H1 H2. vm_compute in H1, H2.
    repeat (apply elem_of_cons in H1 as [->|H1]);
      repeat (apply elem_of_cons in H2 as [->|H2]);
      try (by apply elem_of_nil in H1); try (by apply elem_of_nil in H2);
      simpl; intros Hy Hr; try discriminate Hy; try discriminate Hr; done.
Defined.

(** ** One row per country *)

(** X18: in the second pipeline every row of the node list carries the first
    non-null contestant name among the merged rows of its country, and, when
    the cultural file has one row per country, no two rows share a
    [country_id]. *)
Lemma second_pipeline_one_row_per_country
    contestants_df votes_df cultural_df (top3_only final_only : bool)
    weighting_method min_participations selected o :
  Preprocessor2.main contestants_df votes_df cultural_df top3_only final_only
                     weighting_method min_participations selected = Ok o ->
  (forall n, n ∈ Preprocessor2.country_counts_df o ->
     Node.country_name n
     = first_valid
         (Merged.to_country_y
            <$> filter (fun m => Merged.to_country_id m = Node.country_id n)
                       (Preprocessor2.merged contestants_df votes_df
                                             top3_only final_only)))
  /\ (NoDup (Cultural.country_id <$> Cultural.rows cultural_df) ->
      NoDup (Node.country_id <$> Preprocessor2.country_counts_df o)).
Proof.
  open_main Hw. split.
  - intros n Hn%apply_filters_nodes_subseteq.
    by apply elem_of_preprocess_data2_nodes in Hn as (Hname & _ & _).
  - intros Hnd. rewrite apply_filters_nodes.
    unfold selected_nodes, min_count_nodes.
    do 2 apply NoDup_fmap_filter.
    unfold Preprocessor2.preprocess_data. cbn [snd].
    rewrite merge_cultural_ids, country_counts_ids by done.
    apply NoDup_group_keys.
Qed.

(** C3: the first pipeline groups the participations by the pair of labels
    (to_country_x, to_country_y).  On the sample data, where the contestants
    file names DE 'Germany' in 2021 and 'West Germany' in 1990, its node list
    has two rows for DE; the second pipeline has one, named by the first
    record. *)
Theorem first_pipeline_splits_country_by_name :
  exists o o2,
    Preprocessor.main Sample.contestants Sample.votes "No weights" 1
                      ["Germany"; "West Germany"; "France"] = Ok o
    /\ filter (fun n => Node.country_id n = "DE") (Preprocessor.country_counts_df o)
       = [ Node.mk "DE" (Some "Germany") 1 tt;
           Node.mk "DE" (Some "West Germany") 1 tt ]
    /\ Preprocessor2.main Sample.contestants Sample.votes Sample.cultural false false
                          "No weights" 1 ["Germany"; "West Germany"; "France"] = Ok o2
    /\ filter (fun n => Node.country_id n = "DE") (Preprocessor2.country_counts_df o2)
       = [ Node.mk "DE" (Some "Germany") 2 [Some 35; Some 67] ].
Proof.
  eexists _, _. split; [vm_compute; reflexivity|]. split; [reflexivity|].
  split; [vm_compute; reflexivity|]. reflexivity.
Qed.

(** ** The sample data, evaluated *)

(** Every round whose name holds 'final', 'Semi-Final 1' included, becomes
    'final'. *)
Example normalize_round_samples :
  normalize_round "FINAL" = "final"
  /\ normalize_round "Semi-Final 1" = "final"
  /\ normalize_round "sf2" = "semi-final"
  /\ normalize_round "" = "semi-final".
Proof. repeat split. Qed.

(** The column [weighted_points] of the first pipeline under 'Divide by total
    points', before the filters: a NaN divisor gives NaN, a zero divisor an
    infinity. *)
Example sample_weights_by_total :
  exists rows,
    calculate_weighted_votes
      (Unweighted (Preprocessor.preprocess_data Sample.contestants Sample.votes).1)
      "Divide by total points" = Weighted rows
    /\ finite_value <$> rows.*2
       = [Some (1 # 4)%Q; Some (1 # 8)%Q; None; Some (1 # 5)%Q; None; Some (1 # 10)%Q]
    /\ rows.*2 !! 2%nat = Some NaN
    /\ rows.*2 !! 4%nat = Some PInf.
Proof. eexists. split; [vm_compute; reflexivity|]. by repeat split. Qed.

(** The edge list of the first pipeline under 'No weights': 37 points over
    the non-self-loop rows between Germany and France. *)
Example sample_edges_none :
  exists o,
    Preprocessor.main Sample.contestants Sample.votes "No weights" 1
                      ["Germany"; "France"] = Ok o
    /\ (fun e => (Edge.from_country e, Edge.to_country e,
                  finite_value (Edge.weighted_points e)))
         <$> Preprocessor.eurovision_votes o
       = [("DE", "FR", Some 15%Q); ("FR", "DE", Some 22%Q)]
    /\ finite_value (column_sum (Edge.weighted_points <$> Preprocessor.eurovision_votes o))
       = Some 37%Q.
Proof. eexists. split; [vm_compute; reflexivity|]. by split. Qed.

(** * Further properties of the code *)

(** ** The normalisation of the round *)

Lemma lower_ascii_idemp (c : ascii) : lower_ascii (lower_ascii c) = lower_ascii c.
Proof. by destruct c as [[] [] [] [] [] [] [] []]. Qed.

Lemma lower_idemp (s : string) : lower (lower s) = lower s.
Proof.
  induction s as [|c s IH]; [done|].
  simpl. by rewrite lower_ascii_idemp, IH.
Qed.

Lemma lower_app (a b : string) : lower (a ++ b) = lower a ++ lower b.
Proof. induction a as [|c a IH]; [done|]. simpl. by rewrite IH. Qed.

Lemma lower_length (s : string) : String.length (lower s) = String.length s.
Proof. induction s as [|c s IH]; [done|]. simpl. by rewrite IH. Qed.

Lemma substring_prefix (s b : string) : substring 0 (String.length s) (s ++ b) = s.
Proof.
  induction s as [|c s IH].
  - destruct b; reflexivity.
  - change (String c (substring 0 (String.length s) (s ++ b)) = String c s).
    by rewrite IH.
Qed.

Lemma substring_middle (a s b : string) :
  substring (String.length a) (String.length s) (a ++ s ++ b) = s.
Proof.
  induction a as [|c a IH]; [exact (substring_prefix s b)|exact IH].
Qed.

Lemma normalize_round_final (x : string) :
  normalize_round x = "final" <-> holds_final x.
Proof.
  unfold normalize_round, holds_final.
  destruct (index 0 "final" (lower x)) as [m|] eqn:Hi.
  - split; [|done]. intros _. exists m.
    by apply (index_correct1 0 m "final" (lower x)).
  - split; [done|]. intros [m Hm].
    by destruct (index_correct3 0 m "final" (lower x) Hi ltac:(done) ltac:(lia)).
Qed.

Lemma normalize_round_semi_final (x : string) :
  normalize_round x = "semi-final" <-> ~ holds_final x.
Proof.
  rewrite <-normalize_round_final. unfold normalize_round.
  by destruct (index 0 "final" (lower x)).
Qed.

(** X1: the normalised round is 'final' exactly when the lower-cased name
    holds 'final' somewhere, and 'semi-final' otherwise; so a name built
    around any spelling of 'final' in upper or lower case ('Semi-Final 1',
    'GRAND FINAL') becomes 'final'. *)
Theorem normalize_round_characterised (x : string) :
  (normalize_round x = "final" <-> holds_final x)
  /\ (normalize_round x = "semi-final" <-> ~ holds_final x)
  /\ (forall a s b, x = a ++ s ++ b -> lower s = "final" ->
        normalize_round x = "final").
Proof.
  split; [apply normalize_round_final|]. split; [apply normalize_round_semi_final|].
  intros a s b -> Hs. apply normalize_round_final.
  exists (String.length a). rewrite !lower_app, Hs.
  rewrite <-(lower_length a). apply (substring_middle (lower a) "final" (lower b)).
Qed.

Lemma normalize_round_characterised_witness :
  "Semi-Final 1" = "Semi-" ++ "Final" ++ " 1"
  /\ lower "Final" = "final"
  /\ normalize_round "Semi-Final 1" = "final".
Proof.
  split; [reflexivity|]. split; [reflexivity|].
  apply (proj2 (proj2 (normalize_round_characterised "Semi-Final 1"))
           "Semi-" "Final" " 1"); reflexivity.
Defined.

(** X2: the two labels that the normalisation produces both hold 'final', so
    normalising a column that is already normalised turns every round into
    'final'; the normalisation is not idempotent. *)
Theorem normalize_round_twice (x : string) :
  normalize_round (normalize_round x) = "final".
Proof.
  unfold normalize_round at 2. by destruct (index 0 "final" (lower x)).
Qed.

(** X3: when the name of every round holds 'final' (as 'semi-final' does),
    the option ONLY FINAL of the second pipeline removes no vote, and every
    merged row takes its [total_points_overall] from [points_final]. *)
Theorem final_only_keeps_rounds_named_final (contestants_df : list Contestant.t)
    (votes_df : list Vote.t) (top3_only : bool)
    (Hnames : forall v, v ∈ votes_df -> holds_final (Vote.round v)) :
  Preprocessor2.filtered_votes votes_df top3_only true
  = Preprocessor2.filtered_votes votes_df top3_only false
  /\ forall final_only m,
       m ∈ Preprocessor2.merged contestants_df votes_df top3_only final_only ->
       total_points_overall m = Merged.points_final m.
Proof.
  assert (forall v, v ∈ set_round <$> votes_df -> Vote.round v = "final") as Hround.
  { intros v (v0 & -> & Hv0)%list_elem_of_fmap. simpl.
    by apply normalize_round_final, Hnames. }
  assert (forall b1 b2 v, v ∈ Preprocessor2.filtered_votes votes_df b1 b2 ->
            Vote.round v = "final") as Hf.
  { intros b1 b2 v. unfold Preprocessor2.filtered_votes.
    destruct b1, b2; rewrite ?list_elem_of_filter; naive_solver. }
  split.
  - unfold Preprocessor2.filtered_votes at 1. cbv zeta.
    apply filter_all. intros v Hv. by apply (Hf top3_only false).
  - intros final_only m. unfold Preprocessor2.merged, merge.
    intros (v & Hm & Hv)%list_elem_of_bind.
    unfold total_points_overall.
    rewrite (merge_rows_of_vote Merged.round Vote.round v _ m (fun _ => eq_refl) Hm).
    rewrite (Hf _ _ v Hv). by rewrite decide_True.
Qed.

Lemma final_only_keeps_rounds_named_final_witness :
  let votes_df := [ Vote.mk 2021 "semi-final" "FR" "DE" "DE" (Some 20) (Some 40) 10;
                    Vote.mk 2021 "final" "ES" "DE" "DE" None (Some 40) 5 ] in
  Preprocessor2.filtered_votes votes_df false true
  = Preprocessor2.filtered_votes votes_df false false
  /\ length (Preprocessor2.filtered_votes votes_df false true) = 2%nat.
Proof.
  split; [|reflexivity].
  refine (proj1 (final_only_keeps_rounds_named_final Sample.contestants
                   [ Vote.mk 2021 "semi-final" "FR" "DE" "DE" (Some 20) (Some 40) 10;
                     Vote.mk 2021 "final" "ES" "DE" "DE" None (Some 40) 5 ] false _)).
  intros v Hv.
  repeat (apply elem_of_cons in Hv as [->|Hv]); [| |by apply elem_of_nil in Hv].
  - exists 5%nat. reflexivity.
  - exists 0%nat. reflexivity.
Defined.

(** ** The left join of votes and contestants *)

Lemma vote_of_merged_row (v : Vote.t) (name : option string) :
  vote_of (merged_row v name) = v.
Proof. by destruct v. Qed.

Lemma merge_cons (v : Vote.t) (votes_df : list Vote.t) contestants_df :
  merge (v :: votes_df) contestants_df
  = (match matching contestants_df v with
     | [] => [merged_row v None]
     | cs => (fun c => merged_row v (Some (Contestant.to_country c))) <$> cs
     end ++ merge votes_df contestants_df)%list.
Proof. done. Qed.

Lemma vote_of_rows (v : Vote.t) contestants_df :
  vote_of <$> match matching contestants_df v with
              | [] => [merged_row v None]
              | cs => (fun c => merged_row v (Some (Contestant.to_country c))) <$> cs
              end
  = replicate (Nat.max 1 (length (matching contestants_df v))) v.
Proof.
  destruct (matching contestants_df v) as [|c cs]; [by destruct v|].
  rewrite <-list_fmap_compose.
  change (Nat.max 1 (length (c :: cs))) with (length (c :: cs)).
  generalize (c :: cs). intros l. induction l as [|c' l IH]; [done|].
  rewrite fmap_cons. simpl. rewrite IH. f_equal. by destruct v.
Qed.

Lemma matching_at_most_one contestants_df (v : Vote.t) :
  NoDup (contestant_key <$> contestants_df) ->
  (length (matching contestants_df v) <= 1)%nat.
Proof.
  intros Hnd. unfold matching.
  rewrite (list_filter_iff _
             (fun c => contestant_key c = (Vote.year v, Vote.to_country_id v))).
  - by apply filter_at_most_one.
  - intros c. unfold contestant_key. split.
    + intros [H1 H2]. by rewrite H1, H2.
    + by intros [= H1 H2].
Qed.

(** X4: the join drops no vote and invents none: the merged frame has, for
    every vote, as many rows as contestants match it, and one row when none
    does; the votes found among the merged rows are the votes of the
    input. *)
Theorem merge_keeps_every_vote (votes_df : list Vote.t)
    (contestants_df : list Contestant.t) :
  length (merge votes_df contestants_df)
  = sum_list_with (fun v => Nat.max 1 (length (matching contestants_df v))) votes_df
  /\ (length votes_df <= length (merge votes_df contestants_df))%nat
  /\ forall v, v ∈ vote_of <$> merge votes_df contestants_df <-> v ∈ votes_df.
Proof.
  assert (vote_of <$> merge votes_df contestants_df
          = votes_df ≫= (fun v => replicate
                                    (Nat.max 1 (length (matching contestants_df v))) v))
    as Hrows.
  { induction votes_df as [|v votes_df IH]; [done|].
    by rewrite merge_cons, fmap_app, bind_cons, IH, vote_of_rows. }
  assert (length (merge votes_df contestants_df)
          = sum_list_with (fun v => Nat.max 1 (length (matching contestants_df v)))
                          votes_df) as Hlen.
  { rewrite <-(length_fmap vote_of), Hrows. clear Hrows.
    induction votes_df as [|v votes_df IH]; [done|].
    rewrite bind_cons, length_app, length_replicate, IH. done. }
  split; [done|]. split.
  - rewrite Hlen. clear. induction votes_df as [|v votes_df IH]; simpl; lia.
  - intros v. rewrite Hrows, list_elem_of_bind. split.
    + by intros (v' & [-> _]%elem_of_replicate & Hv').
    + intros Hv. exists v. split; [|done]. apply elem_of_replicate. split; [done|lia].
Qed.

(** X5: when no two contestants share (year, to_country_id), the merged
    frame has exactly one row per vote, in the order of the votes and with
    their columns unchanged. *)
Theorem merge_one_row_per_vote (votes_df : list Vote.t)
    (contestants_df : list Contestant.t)
    (Hkeys : NoDup (contestant_key <$> contestants_df)) :
  vote_of <$> merge votes_df contestants_df = votes_df.
Proof.
  induction votes_df as [|v votes_df IH]; [done|].
  rewrite merge_cons, fmap_app, IH, vote_of_rows.
  pose proof (matching_at_most_one contestants_df v Hkeys) as Hle.
  destruct (matching contestants_df v) as [|c [|c' cs]]; [done|done|].
  simpl in Hle. lia.
Qed.

Lemma merge_one_row_per_vote_witness :
  NoDup (contestant_key <$> Sample.contestants)
  /\ vote_of <$> merge Sample.votes Sample.contestants = Sample.votes.
Proof.
  assert (NoDup (contestant_key <$> Sample.contestants)) as Hnd.
  { apply (bool_decide_unpack _). vm_compute. reflexivity. }
  split; [exact Hnd|]. apply (merge_one_row_per_vote Sample.votes Sample.contestants Hnd).
Defined.

(** ** Participation counts as divisors *)

Lemma filter_nonempty_length {A} (P : A -> Prop) `{!forall x, Decision (P x)}
    (l : list A) (x : A) :
  x ∈ l -> P x -> (1 <= length (filter P l))%nat.
Proof.
  intros Hx HP.
  assert (x ∈ filter P l) as Hin by (by apply list_elem_of_filter).
  destruct (filter P l); [by apply elem_of_nil in Hin|simpl; lia].
Qed.

Lemma country_counts_positive unique_years_df n :
  n ∈ Preprocessor.country_counts unique_years_df -> 1 <= Node.count n.
Proof.
  unfold Preprocessor.country_counts.
  intros (k & -> & Hk)%list_elem_of_fmap. simpl.
  apply elem_of_group_keys, list_elem_of_omap in Hk as (u & Hu & Hk).
  destruct (u.2) as [name|] eqn:Hname; simplify_eq/=.
  pose proof (filter_nonempty_length
                (fun u0 : Z * string * string * option string =>
                   u0.1.2 = u.1.2 /\ u0.2 = Some name)
                unique_years_df u Hu (conj eq_refl Hname)).
  lia.
Qed.

Lemma country_counts2_positive unique_years_df n :
  n ∈ Preprocessor2.country_counts unique_years_df -> 1 <= Node.count n.
Proof.
  unfold Preprocessor2.country_counts.
  intros (k & -> & Hk)%list_elem_of_fmap. simpl.
  apply elem_of_group_keys, list_elem_of_fmap in Hk as (u & -> & Hu).
  pose proof (filter_nonempty_length
                (fun u0 : Z * string * string * option string * string => u0.2 = u.2)
                unique_years_df u Hu eq_refl).
  lia.
Qed.

Lemma preprocess_data_count_positive contestants_df votes_df n :
  n ∈ (Preprocessor.preprocess_data contestants_df votes_df).2 -> 1 <= Node.count n.
Proof. apply country_counts_positive. Qed.

Lemma preprocess_data2_count_positive contestants_df votes_df cultural_df
    top3_only final_only n :
  n ∈ (Preprocessor2.preprocess_data contestants_df votes_df cultural_df
                                     top3_only final_only).2 ->
  1 <= Node.count n.
Proof.
  unfold Preprocessor2.preprocess_data. cbn [snd].
  intros (n0 & Hn0 & _ & _ & ->)%elem_of_merge_cultural.
  by eapply country_counts2_positive.
Qed.

(** A row of the node list that the cultural join starts from is found in
    its result. *)
Lemma merge_cultural_keeps nodes cultural_df n0 :
  n0 ∈ nodes ->
  exists n, n ∈ Preprocessor2.merge_cultural nodes cultural_df
            /\ Node.country_id n = Node.country_id n0
            /\ Node.country_name n = Node.country_name n0
            /\ Node.count n = Node.count n0
            /\ (Cultural.country_id <$> Cultural.rows cultural_df
                  ## [Node.country_id n0] ->
                Node.attrs n
                = replicate (length (Cultural.dimensions cultural_df)) None).
Proof.
  intros Hn0. unfold Preprocessor2.merge_cultural.
  destruct (filter (fun c => Cultural.country_id c = Node.country_id n0)
                   (Cultural.rows cultural_df)) as [|c cs] eqn:Hf.
  - eexists. split.
    + apply list_elem_of_bind. exists n0. split; [|done]. rewrite Hf.
      apply list_elem_of_here.
    + by repeat split.
  - eexists. split.
    + apply list_elem_of_bind. exists n0. split; [|done]. rewrite Hf.
      rewrite fmap_cons. apply list_elem_of_here.
    + repeat split. intros Hdisj. exfalso.
      assert (c ∈ filter (fun c => Cultural.country_id c = Node.country_id n0)
                         (Cultural.rows cultural_df)) as [Hc Hin]%list_elem_of_filter
        by (rewrite Hf; apply list_elem_of_here).
      apply (Hdisj (Node.country_id n0)).
      * rewrite <-Hc. by apply list_elem_of_fmap_2.
      * apply list_elem_of_here.
Qed.

Section participation_lookup.
Context {X Y : Type}.
Implicit Types (final_df : list (Final.t X)) (nodes : list (Node.t Y)).

Lemma participation_map_lookup nodes id :
  id ∈ Node.country_id <$> nodes ->
  exists n, n ∈ nodes /\ Node.country_id n = id
            /\ Preprocessor.participation_map nodes !! id = Some (Node.count n).
Proof.
  intros Hid. unfold Preprocessor.participation_map.
  destruct (to_dict_lookup_is_Some
              ((fun n => (Node.country_id n, Node.count n)) <$> nodes) id) as [c Hc].
  { by rewrite <-list_fmap_compose. }
  pose proof (to_dict_lookup_Some _ _ _ Hc) as (n & [= -> ->] & Hn)%list_elem_of_fmap.
  by exists n.
Qed.

Lemma participation_map_lookup_None nodes id :
  id ∉ Node.country_id <$> nodes ->
  Preprocessor.participation_map nodes !! id = None.
Proof.
  intros Hid. unfold Preprocessor.participation_map.
  destruct (to_dict _ !! id) as [c|] eqn:Hc; [|done].
  apply to_dict_lookup_Some, list_elem_of_fmap in Hc as (n & [= -> ->] & Hn).
  destruct Hid. by apply list_elem_of_fmap_2.
Qed.

(** After the filter on the endpoints every row has looked up a count. *)
Lemma apply_filters_participation final_df nodes min_participations selected r :
  (forall r, r ∈ final_df ->
     Final.to_country_participation r
     = Preprocessor.participation_map nodes !! Final.to_country r) ->
  (forall n, n ∈ nodes -> 1 <= Node.count n) ->
  r ∈ (apply_filters (final_df, nodes) min_participations selected).1 ->
  exists c, Final.to_country_participation r = Some c /\ 1 <= c.
Proof.
  intros Hlook Hpos. unfold apply_filters, filter_countries, known_endpoints.
  cbn [fst].
  intros [_ [_ [Hto Hr]%list_elem_of_filter]%list_elem_of_filter]%list_elem_of_filter.
  apply list_elem_of_fmap in Hto as (n0 & Hid & [_ Hn0]%list_elem_of_filter).
  destruct (participation_map_lookup nodes (Final.to_country r)) as (n & Hn & _ & Hc).
  { rewrite Hid. by apply list_elem_of_fmap_2. }
  exists (Node.count n). rewrite (Hlook r Hr). split; [done|by apply Hpos].
Qed.
End participation_lookup.

Lemma calculate_weighted_votes_recognised_rows {X} (final_df : list (Final.t X)) m rows :
  recognised m ->
  calculate_weighted_votes (Unweighted final_df) m = Weighted rows ->
  rows = (fun r => (r, weight_of m r)) <$> final_df.
Proof.
  intros Hm. rewrite calculate_weighted_votes_recognised by done.
  cbn [frame_rows]. congruence.
Qed.

Lemma true_divide_finite (a c : Z) : 1 <= c -> is_finite (true_divide a (Some c)) = true.
Proof. intros Hc. by destruct c; [lia| |]. Qed.

Lemma xadd_finite (x y : xnum) :
  is_finite x = true -> is_finite y = true -> is_finite (xadd x y) = true.
Proof. by destruct x, y. Qed.

Lemma column_sum_finite (xs : list xnum) :
  (forall x, x ∈ xs -> is_finite x = true) -> is_finite (column_sum xs) = true.
Proof.
  unfold column_sum. generalize (eq_refl : is_finite (of_int 0) = true).
  generalize (of_int 0). induction xs as [|x xs IH]; intros acc Hacc Hxs; [done|].
  simpl. apply IH.
  - pose proof (Hxs x (list_elem_of_here _ _)). destruct x; try done.
    by apply xadd_finite.
  - intros y Hy. by apply Hxs, list_elem_of_further.
Qed.

Lemma groupby_sum_finite {X} (rows : list (Final.t X * xnum)) e :
  (forall rw, rw ∈ rows -> is_finite rw.2 = true) ->
  e ∈ groupby_sum rows -> is_finite (Edge.weighted_points e) = true.
Proof.
  intros Hrows. unfold groupby_sum. intros (k & -> & _)%list_elem_of_fmap. simpl.
  apply column_sum_finite.
  intros x (rw & -> & [_ Hrw]%list_elem_of_filter)%list_elem_of_fmap.
  by apply Hrows.
Qed.

Lemma preprocess_data_lookup contestants_df votes_df r :
  r ∈ (Preprocessor.preprocess_data contestants_df votes_df).1 ->
  Final.to_country_participation r
  = Preprocessor.participation_map
      (Preprocessor.preprocess_data contestants_df votes_df).2 !! Final.to_country r.
Proof. rewrite preprocess_data_final. by intros (m & -> & _)%list_elem_of_fmap. Qed.

Lemma preprocess_data2_lookup contestants_df votes_df cultural_df top3_only final_only r :
  r ∈ (Preprocessor2.preprocess_data contestants_df votes_df cultural_df
                                     top3_only final_only).1 ->
  Final.to_country_participation r
  = Preprocessor.participation_map
      (Preprocessor2.preprocess_data contestants_df votes_df cultural_df
                                     top3_only final_only).2 !! Final.to_country r.
Proof. rewrite preprocess_data2_final. by intros (m & -> & _)%list_elem_of_fmap. Qed.

(** X6: in the second pipeline no row of [final_df] misses its
    [to_country_participation]: every row holds the count of a node of its
    destination, and that count is at least 1. *)
Theorem second_pipeline_participation_never_missing
    contestants_df votes_df cultural_df (top3_only final_only : bool) r
    (Hr : r ∈ (Preprocessor2.preprocess_data contestants_df votes_df cultural_df
                                             top3_only final_only).1) :
  exists n,
    n ∈ (Preprocessor2.preprocess_data contestants_df votes_df cultural_df
                                       top3_only final_only).2
    /\ Node.country_id n = Final.to_country r
    /\ Final.to_country_participation r = Some (Node.count n)
    /\ 1 <= Node.count n.
Proof.
  rewrite (preprocess_data2_lookup _ _ _ _ _ _ Hr).
  destruct (participation_map_lookup
              (Preprocessor2.preprocess_data contestants_df votes_df cultural_df
                                             top3_only final_only).2
              (Final.to_country r)) as (n & Hn & Hid & Hc).
  - rewrite preprocess_data2_final in Hr.
    apply list_elem_of_fmap in Hr as (m & -> & Hm). simpl.
    assert (Merged.to_country_id m
            ∈ Node.country_id
                <$> Preprocessor2.country_counts
                      (Preprocessor2.unique_years
                         (Preprocessor2.merged contestants_df votes_df
                                               top3_only final_only))) as Hin.
    { rewrite country_counts_ids, elem_of_group_keys.
      apply list_elem_of_fmap. exists (Preprocessor2.unique_row m). split; [done|].
      unfold Preprocessor2.unique_years. rewrite elem_of_drop_duplicates.
      by apply list_elem_of_fmap_2. }
    apply list_elem_of_fmap in Hin as (n0 & Hid0 & Hn0).
    destruct (merge_cultural_keeps _ cultural_df n0 Hn0) as (n & Hn & Hid & _).
    apply list_elem_of_fmap. exists n. split; [by rewrite Hid, <-Hid0|done].
  - exists n. repeat split; try done.
    by eapply preprocess_data2_count_positive.
Qed.

Lemma second_pipeline_participation_never_missing_witness :
  exists r (n : Node.t (list (option Z))),
    r ∈ (Preprocessor2.preprocess_data Sample.contestants Sample.votes Sample.cultural
                                       false false).1
    /\ Node.country_id n = Final.to_country r
    /\ Final.to_country_participation r = Some (Node.count n)
    /\ Node.count n = 2.
Proof.
  assert (Final.mk 2021 "final" "FR" "DE" 10 (Some 40) (Some 2) tt
          ∈ (Preprocessor2.preprocess_data Sample.contestants Sample.votes
                                           Sample.cultural false false).1) as Hr
    by apply list_elem_of_here.
  destruct (second_pipeline_participation_never_missing
              Sample.contestants Sample.votes Sample.cultural false false _ Hr)
    as (n & _ & Hid & Hc & _).
  eexists _, n. split; [exact Hr|]. split; [exact Hid|]. split; [exact Hc|].
  simpl in Hc. congruence.
Defined.

(** X7: under 'No weights' and under 'Divide by participation count' every
    weight of every emitted edge list is a finite number: after the filter
    on the endpoints each row has a participation count of at least 1, in
    either pipeline. *)
Theorem weights_finite_without_total_division contestants_df votes_df cultural_df
    (top3_only final_only : bool) weighting_method min_participations selected
    (Hm : weighting_method = "No weights"
          \/ weighting_method = "Divide by participation count") :
  (forall o e,
     Preprocessor.main contestants_df votes_df weighting_method
                       min_participations selected = Ok o ->
     e ∈ Preprocessor.eurovision_votes o ->
     is_finite (Edge.weighted_points e) = true)
  /\ (forall o e,
        Preprocessor2.main contestants_df votes_df cultural_df top3_only final_only
                           weighting_method min_participations selected = Ok o ->
        e ∈ Preprocessor2.eurovision_votes o \/ e ∈ Preprocessor2.edge_list_csv o ->
        is_finite (Edge.weighted_points e) = true).
Proof.
  assert (recognised weighting_method) as Hrec by (unfold recognised; tauto).
  assert (forall X (r : Final.t X) c,
            Final.to_country_participation r = Some c -> 1 <= c ->
            is_finite (weight_of weighting_method r) = true) as Hfin.
  { intros X r c Hc Hpos. unfold weight_of.
    destruct Hm as [-> | ->]; repeat case_decide; try done.
    rewrite Hc. by apply true_divide_finite. }
  split.
  - intros o e. open_main Hw.
    apply calculate_weighted_votes_recognised_rows in Hw as ->; [|done].
    apply groupby_sum_finite.
    intros rw [_ (r & -> & Hr)%list_elem_of_fmap]%elem_of_drop_self_loops.
    destruct (Preprocessor.preprocess_data contestants_df votes_df)
      as [final_df nodes] eqn:Hpre.
    destruct (apply_filters_participation final_df nodes min_participations selected r)
      as (c & Hc & Hpos); [| |done|by eapply Hfin].
    + intros r' Hr'. change final_df with (final_df, nodes).1 in Hr'.
      rewrite <-Hpre in Hr'. rewrite (preprocess_data_lookup _ _ _ Hr'). by rewrite Hpre.
    + intros n Hn. apply (preprocess_data_count_positive contestants_df votes_df).
      by rewrite Hpre.
  - intros o e. open_main Hw.
    apply calculate_weighted_votes_recognised_rows in Hw as ->; [|done].
    destruct (Preprocessor2.preprocess_data contestants_df votes_df cultural_df
                                            top3_only final_only)
      as [final_df nodes] eqn:Hpre.
    assert (forall r, r ∈ (apply_filters (final_df, nodes) min_participations selected).1 ->
              is_finite (weight_of weighting_method r) = true) as Hrows.
    { intros r Hr.
      destruct (apply_filters_participation final_df nodes min_participations selected r)
        as (c & Hc & Hpos); [| |done|by eapply Hfin].
      + intros r' Hr'. change final_df with (final_df, nodes).1 in Hr'.
        rewrite <-Hpre in Hr'. rewrite (preprocess_data2_lookup _ _ _ _ _ _ Hr').
        by rewrite Hpre.
      + intros n Hn.
        apply (preprocess_data2_count_positive contestants_df votes_df cultural_df
                 top3_only final_only).
        by rewrite Hpre. }
    intros [He%drop_zero_edges_subseteq|He].
    + revert He. apply groupby_sum_finite.
      intros rw [_ (r & -> & Hr)%list_elem_of_fmap]%elem_of_drop_self_loops.
      by apply Hrows.
    + unfold edge_columns in He.
      apply list_elem_of_fmap in He as (rw & -> & (r & -> & Hr)%list_elem_of_fmap).
      by apply Hrows.
Qed.

Lemma weights_finite_without_total_division_witness :
  exists o e,
    Preprocessor.main Sample.contestants Sample.votes "Divide by participation count"
                      1 ["Germany"; "France"] = Ok o
    /\ e ∈ Preprocessor.eurovision_votes o
    /\ is_finite (Edge.weighted_points e) = true.
Proof.
  eexists _, _. split; [vm_compute; reflexivity|]. split; [apply list_elem_of_here|].
  refine (proj1 (weights_finite_without_total_division
                   Sample.contestants Sample.votes Sample.cultural false false
                   "Divide by participation count" 1 ["Germany"; "France"]
                   (or_intror eq_refl)) _ _ _ _).
  - vm_compute. reflexivity.
  - apply list_elem_of_here.
Defined.

(** ** The node list and the threshold *)




Lemma apply_filters_low_threshold {X Y} (pre : list (Final.t X) * list (Node.t Y))
    min_participations selected :
  (forall n, n ∈ pre.2 -> 1 <= Node.count n) ->
  min_participations <= 1 ->
  apply_filters pre min_participations selected = apply_filters pre 1 selected.
Proof.
  intros Hpos Hmin. destruct pre as [final_df nodes]. unfold apply_filters.
  assert (forall m, m <= 1 -> min_count_nodes m nodes = nodes) as Hall.
  { intros m Hm. apply filter_all. intros n Hn. specialize (Hpos n Hn). lia. }
  by rewrite (Hall min_participations Hmin), (Hall 1 ltac:(lia)).
Qed.

(** X9: a threshold [min_participations] of 1 or less filters nothing: since
    every counted country has a count of at least 1, either pipeline gives
    the same result as with the default threshold 1. *)
Theorem threshold_of_at_most_one_filters_nothing contestants_df votes_df cultural_df
    (top3_only final_only : bool) weighting_method min_participations selected
    (Hmin : min_participations <= 1) :
  Preprocessor.main contestants_df votes_df weighting_method min_participations selected
  = Preprocessor.main contestants_df votes_df weighting_method 1 selected
  /\ Preprocessor2.main contestants_df votes_df cultural_df top3_only final_only
                        weighting_method min_participations selected
     = Preprocessor2.main contestants_df votes_df cultural_df top3_only final_only
                          weighting_method 1 selected.
Proof.
  rewrite !main_unfold, !main2_unfold. cbv zeta.
  rewrite (apply_filters_low_threshold
             (Preprocessor.preprocess_data contestants_df votes_df)
             min_participations selected); [|by apply preprocess_data_count_positive|done].
  rewrite (apply_filters_low_threshold
             (Preprocessor2.preprocess_data contestants_df votes_df cultural_df
                                            top3_only final_only)
             min_participations selected);
    [done|by apply preprocess_data2_count_positive|done].
Qed.

Lemma threshold_of_at_most_one_filters_nothing_witness :
  0 <= 1
  /\ Preprocessor.main Sample.contestants Sample.votes "Divide by both" 0 ["France"]
     = Preprocessor.main Sample.contestants Sample.votes "Divide by both" 1 ["France"].
Proof.
  split; [lia|].
  apply (proj1 (threshold_of_at_most_one_filters_nothing
                  Sample.contestants Sample.votes Sample.cultural false false
                  "Divide by both" 0 ["France"] ltac:(lia))).
Defined.

(** X10: either [main] returns its lists exactly when the weighting option
    is one of the four strings of the radio button; with any other string
    [calculate_weighted_votes] adds no column and the aggregation raises
    KeyError on 'weighted_points'. *)
Theorem main_returns_iff_method_recognised contestants_df votes_df cultural_df
    (top3_only final_only : bool) weighting_method min_participations selected :
  ((exists o, Preprocessor.main contestants_df votes_df weighting_method
                                min_participations selected = Ok o)
   <-> recognised weighting_method)
  /\ ((exists o, Preprocessor2.main contestants_df votes_df cultural_df
                                    top3_only final_only weighting_method
                                    min_participations selected = Ok o)
      <-> recognised weighting_method)
  /\ (~ recognised weighting_method ->
      Preprocessor.main contestants_df votes_df weighting_method
                        min_participations selected = KeyError "weighted_points"
      /\ Preprocessor2.main contestants_df votes_df cultural_df top3_only final_only
                            weighting_method min_participations selected
         = KeyError "weighted_points").
Proof.
  split; [|split].
  - split; [|apply main_returns]. intros [o Ho].
    destruct (decide (recognised weighting_method)) as [|Hm]; [done|].
    by rewrite main_unrecognised in Ho.
  - split; [|apply main2_returns]. intros [o Ho].
    destruct (decide (recognised weighting_method)) as [|Hm]; [done|].
    by rewrite main2_unrecognised in Ho.
  - intros Hm. by rewrite main_unrecognised, main2_unrecognised.
Qed.

Lemma main_returns_iff_method_recognised_witness :
  ~ recognised "by_total"
  /\ Preprocessor.main Sample.contestants Sample.votes "by_total" 1 ["France"]
     = KeyError "weighted_points"
  /\ Preprocessor2.main Sample.contestants Sample.votes Sample.cultural false false
                        "by_total" 1 ["France"]
     = KeyError "weighted_points".
Proof.
  assert (~ recognised "by_total") as Hm.
  { unfold recognised. intros [H|[H|[H|H]]]; discriminate H. }
  split; [exact Hm|].
  apply (proj2 (proj2 (main_returns_iff_method_recognised
                         Sample.contestants Sample.votes Sample.cultural false false
                         "by_total" 1 ["France"])) Hm).
Defined.

(** ** The country selection *)

Section selection.
Context {X Y : Type}.
Implicit Types (final_df : list (Final.t X)) (nodes : list (Node.t Y)).
Implicit Types (pre : list (Final.t X) * list (Node.t Y)).

Lemma elem_of_selected_ids nodes (selected : list string) id :
  id ∈ omap (fun country => country_mapping nodes !! country) selected <->
  exists name, name ∈ selected /\ country_mapping nodes !! name = Some id.
Proof. apply list_elem_of_omap. Qed.

Lemma sublist_filter_impl {A} (P Q : A -> Prop) `{!forall x, Decision (P x)}
    `{!forall x, Decision (Q x)} (l : list A) :
  (forall x, x ∈ l -> P x -> Q x) -> filter P l `sublist_of` filter Q l.
Proof.
  intros HPQ.
  replace (filter P l) with (filter P (filter Q l)); [apply sublist_filter|].
  rewrite list_filter_filter. apply filter_ext_elem. naive_solver.
Qed.

(** The filters read the selection only through the names of the nodes. *)
Lemma apply_filters_selection_ext pre min_participations
    (selected1 selected2 : list string) :
  (forall n name, n ∈ pre.2 -> Node.country_name n = Some name ->
     name ∈ selected1 <-> name ∈ selected2) ->
  apply_filters pre min_participations selected1
  = apply_filters pre min_participations selected2.
Proof.
  destruct pre as [final_df nodes]. cbn [snd]. intros Hsel.
  unfold apply_filters. f_equal.
  - unfold filter_countries. apply list_filter_iff. intros r.
    assert (forall id,
              id ∈ omap (fun c => country_mapping
                                    (min_count_nodes min_participations nodes) !! c)
                        selected1
              <-> id ∈ omap (fun c => country_mapping
                                        (min_count_nodes min_participations nodes) !! c)
                            selected2) as Hids.
    { intros id. rewrite !elem_of_selected_ids.
      split; intros (name & Hname & Hid); exists name; (split; [|done]);
        pose proof Hid as (n & [_ Hn]%list_elem_of_filter & Hnm & _)%country_mapping_lookup;
        by apply (Hsel n name Hn Hnm). }
    by rewrite !Hids.
  - unfold selected_nodes. apply filter_ext_elem.
    intros n [_ Hn]%list_elem_of_filter. rewrite !list_elem_of_fmap.
    split; intros (name & Hnm & Hin); exists name; (split; [done|]);
      by apply (Hsel n name Hn Hnm).
Qed.

Lemma apply_filters_no_selection pre min_participations :
  apply_filters pre min_participations [] = ([], []).
Proof.
  destruct pre as [final_df nodes]. unfold apply_filters. f_equal.
  - unfold filter_countries. simpl. apply filter_none.
    intros r _ [Hr _]. by apply elem_of_nil in Hr.
  - unfold selected_nodes. apply filter_none. intros n _ Hn.
    by apply elem_of_nil in Hn.
Qed.

Lemma apply_filters_selection_mono pre min_participations
    (selected1 selected2 : list string) :
  selected1 ⊆ selected2 ->
  (apply_filters pre min_participations selected1).1
    `sublist_of` (apply_filters pre min_participations selected2).1
  /\ (apply_filters pre min_participations selected1).2
       `sublist_of` (apply_filters pre min_participations selected2).2.
Proof.
  destruct pre as [final_df nodes]. intros Hsub. unfold apply_filters. cbn [fst snd].
  split.
  - unfold filter_countries. apply sublist_filter_impl.
    intros r _. rewrite !elem_of_selected_ids. naive_solver.
  - unfold selected_nodes. apply sublist_filter_impl.
    intros n _. rewrite !list_elem_of_fmap. naive_solver.
Qed.
End selection.

(** X11: the result of either pipeline depends on the selection only through
    the names of counted countries that it holds: the order of the names,
    repetitions, and names that no node carries make no difference. *)
Theorem selection_read_through_node_names contestants_df votes_df cultural_df
    (top3_only final_only : bool) weighting_method min_participations
    (selected1 selected2 : list string) :
  ((forall n name,
      n ∈ (Preprocessor.preprocess_data contestants_df votes_df).2 ->
      Node.country_name n = Some name -> name ∈ selected1 <-> name ∈ selected2) ->
   Preprocessor.main contestants_df votes_df weighting_method
                     min_participations selected1
   = Preprocessor.main contestants_df votes_df weighting_method
                       min_participations selected2)
  /\ ((forall n name,
         n ∈ (Preprocessor2.preprocess_data contestants_df votes_df cultural_df
                                            top3_only final_only).2 ->
         Node.country_name n = Some name -> name ∈ selected1 <-> name ∈ selected2) ->
      Preprocessor2.main contestants_df votes_df cultural_df top3_only final_only
                         weighting_method min_participations selected1
      = Preprocessor2.main contestants_df votes_df cultural_df top3_only final_only
                           weighting_method min_participations selected2).
Proof.
  split; intros Hsel.
  - rewrite !main_unfold. cbv zeta.
    by rewrite (apply_filters_selection_ext _ min_participations selected1 selected2 Hsel).
  - rewrite !main2_unfold. cbv zeta.
    by rewrite (apply_filters_selection_ext _ min_participations selected1 selected2 Hsel).
Qed.

Lemma selection_read_through_node_names_witness :
  Preprocessor.main Sample.contestants Sample.votes "No weights" 1
                    ["France"; "Atlantis"; "Germany"; "France"]
  = Preprocessor.main Sample.contestants Sample.votes "No weights" 1
                      ["Germany"; "France"].
Proof.
  apply (proj1 (selection_read_through_node_names
                  Sample.contestants Sample.votes Sample.cultural false false
                  "No weights" 1 ["France"; "Atlantis"; "Germany"; "France"]
                  ["Germany"; "France"])).
  intros n name Hn Hname. vm_compute in Hn.
  repeat (apply elem_of_cons in Hn as [->|Hn]); try (by apply elem_of_nil in Hn);
    simpl in Hname; injection Hname as <-;
    apply (bool_decide_unpack _); reflexivity.
Defined.

(** X12: with an empty selection either pipeline returns empty edge and node
    lists, whatever the data. *)
Theorem empty_selection_gives_empty_lists contestants_df votes_df cultural_df
    (top3_only final_only : bool) weighting_method min_participations
    (Hm : recognised weighting_method) :
  Preprocessor.main contestants_df votes_df weighting_method min_participations []
  = Ok (Preprocessor.mk_output [] [])
  /\ Preprocessor2.main contestants_df votes_df cultural_df top3_only final_only
                        weighting_method min_participations []
     = Ok (Preprocessor2.mk_output [] [] [] []).
Proof.
  rewrite main_unfold, main2_unfold. cbv zeta.
  rewrite !apply_filters_no_selection. cbn [fst snd].
  by rewrite !calculate_weighted_votes_recognised.
Qed.

Lemma empty_selection_gives_empty_lists_witness :
  recognised "Divide by both"
  /\ Preprocessor.main Sample.contestants Sample.votes "Divide by both" 1 []
     = Ok (Preprocessor.mk_output [] []).
Proof.
  assert (recognised "Divide by both") as Hm by (by do 3 right).
  split; [exact Hm|].
  apply (proj1 (empty_selection_gives_empty_lists
                  Sample.contestants Sample.votes Sample.cultural false false
                  "Divide by both" 1 Hm)).
Defined.

(** X13: selecting more names never removes a row: the node list of either
    pipeline, and the list that the second offers for download, grow as
    sublists when names are added to the selection. *)
Theorem larger_selection_keeps_rows contestants_df votes_df cultural_df
    (top3_only final_only : bool) weighting_method min_participations
    (selected1 selected2 : list string) (Hsub : selected1 ⊆ selected2) :
  (forall o1 o2,
     Preprocessor.main contestants_df votes_df weighting_method
                       min_participations selected1 = Ok o1 ->
     Preprocessor.main contestants_df votes_df weighting_method
                       min_participations selected2 = Ok o2 ->
     Preprocessor.country_counts_df o1 `sublist_of` Preprocessor.country_counts_df o2)
  /\ (forall o1 o2,
        Preprocessor2.main contestants_df votes_df cultural_df top3_only final_only
                           weighting_method min_participations selected1 = Ok o1 ->
        Preprocessor2.main contestants_df votes_df cultural_df top3_only final_only
                           weighting_method min_participations selected2 = Ok o2 ->
        Preprocessor2.country_counts_df o1
          `sublist_of` Preprocessor2.country_counts_df o2
        /\ Preprocessor2.edge_list_csv o1 `sublist_of` Preprocessor2.edge_list_csv o2).
Proof.
  split; intros o1 o2.
  - open_main Hw1. open_main Hw2.
    by apply apply_filters_selection_mono.
  - destruct (decide (recognised weighting_method)) as [Hm|Hm];
      [|by rewrite main2_unrecognised].
    open_main Hw1. open_main Hw2.
    apply calculate_weighted_votes_recognised_rows in Hw1 as ->; [|done].
    apply calculate_weighted_votes_recognised_rows in Hw2 as ->; [|done].
    split; [by apply apply_filters_selection_mono|].
    unfold edge_columns. do 2 apply fmap_sublist.
    by apply apply_filters_selection_mono.
Qed.

Lemma larger_selection_keeps_rows_witness :
  exists o1 o2,
    ["France"] ⊆ ["Germany"; "France"]
    /\ Preprocessor.main Sample.contestants Sample.votes "No weights" 1 ["France"] = Ok o1
    /\ Preprocessor.main Sample.contestants Sample.votes "No weights" 1
                         ["Germany"; "France"] = Ok o2
    /\ length (Preprocessor.country_counts_df o1) = 1%nat
    /\ length (Preprocessor.country_counts_df o2) = 2%nat
    /\ Preprocessor.country_counts_df o1 `sublist_of` Preprocessor.country_counts_df o2.
Proof.
  assert (["France"] ⊆ ["Germany"; "France"]) as Hsub.
  { intros x ->%list_elem_of_singleton. repeat constructor. }
  eexists _, _. split; [exact Hsub|].
  split; [vm_compute; reflexivity|]. split; [vm_compute; reflexivity|].
  split; [reflexivity|]. split; [reflexivity|].
  apply (proj1 (larger_selection_keeps_rows
                  Sample.contestants Sample.votes Sample.cultural false false
                  "No weights" 1 ["France"] ["Germany"; "France"] Hsub));
    vm_compute; reflexivity.
Defined.

(** ** Order and number of the edges *)

Lemma compare_Lt_trans (a b c : string) :
  String.compare a b = Lt -> String.compare b c = Lt -> String.compare a c = Lt.
Proof.
  intros Hab Hbc.
  apply OrderedTypeEx.String_as_OT.cmp_lt in Hab, Hbc.
  apply OrderedTypeEx.String_as_OT.cmp_lt.
  by eapply OrderedTypeEx.String_as_OT.lt_trans.
Qed.

Lemma compare_refl (a : string) : String.compare a a = Eq.
Proof. by apply OrderedTypeEx.String_as_OT.cmp_eq. Qed.

Lemma string_le_alt (a b : string) :
  string_le a b <-> String.compare a b = Lt \/ a = b.
Proof.
  unfold string_le, holds, String.leb.
  destruct (String.compare a b) eqn:Hc.
  - apply String.compare_eq_iff in Hc. naive_solver.
  - naive_solver.
  - split; [done|]. intros [?| ->]; [done|]. by rewrite compare_refl in Hc.
Qed.

Global Instance string_le_trans : Transitive string_le.
Proof.
  intros a b c. rewrite !string_le_alt.
  intros [Hab| ->] [Hbc| ->]; eauto using compare_Lt_trans.
Qed.

Global Instance string_le_total : Total string_le.
Proof. intros a b. apply String.leb_total. Qed.

Lemma pair_le_alt (a b : string * string) :
  pair_le a b <-> String.compare a.1 b.1 = Lt \/ (a.1 = b.1 /\ string_le a.2 b.2).
Proof.
  unfold pair_le, holds, pair_leb. fold (string_le a.2 b.2).
  destruct (String.compare a.1 b.1) eqn:Hc.
  - apply String.compare_eq_iff in Hc. naive_solver.
  - naive_solver.
  - split; [done|]. intros [?|[Heq _]]; [done|]. by rewrite Heq, compare_refl in Hc.
Qed.

Global Instance pair_le_trans : Transitive pair_le.
Proof.
  intros a b c. rewrite !pair_le_alt.
  intros [Hab|[Hab1 Hab2]] [Hbc|[Hbc1 Hbc2]].
  - left. by eapply compare_Lt_trans.
  - left. by rewrite <-Hbc1.
  - left. by rewrite Hab1.
  - right. split; [congruence|]. by etrans.
Qed.

Global Instance pair_le_total : Total pair_le.
Proof.
  intros a b. rewrite !pair_le_alt.
  destruct (String.compare a.1 b.1) eqn:Hc.
  - apply String.compare_eq_iff in Hc.
    destruct (string_le_total a.2 b.2); naive_solver.
  - left. by left.
  - right. left. rewrite String.compare_antisym, Hc. done.
Qed.

Global Instance pair_le_antisymm : AntiSymm (=) pair_le.
Proof.
  intros [a1 a2] [b1 b2]. rewrite !pair_le_alt. simpl.
  intros [Hab|[-> Hab]] [Hba|[Heq Hba]].
  - rewrite String.compare_antisym, Hab in Hba. done.
  - subst. by rewrite compare_refl in Hab.
  - by rewrite compare_refl in Hba.
  - f_equal. by apply String.leb_antisym.
Qed.

Section sorted_keys.
Context {A : Type} `{EqDecision A} (le : A -> A -> bool).
Context `{!Transitive (holds le), !Total (holds le)}.

Lemma insert_sorted_sorted k l :
  StronglySorted (holds le) l -> StronglySorted (holds le) (insert_sorted le k l).
Proof.
  induction 1 as [|h l Hl IH Hh]; simpl; [repeat constructor|].
  destruct (le k h) eqn:Hkh.
  - apply StronglySorted_cons. split; [|by constructor].
    constructor; [done|].
    eapply Forall_impl; [exact Hh|]. intros x Hx. by trans h.
  - apply StronglySorted_cons. split; [|done].
    rewrite insert_sorted_perm. constructor; [|done].
    destruct (total (holds le) k h) as [Hkh'|]; [|done].
    unfold holds in Hkh'. congruence.
Qed.

Lemma sort_keys_sorted l : StronglySorted (holds le) (sort_keys le l).
Proof.
  induction l as [|x l IH]; [constructor|].
  by apply insert_sorted_sorted.
Qed.

Lemma group_keys_sorted l : StronglySorted (holds le) (group_keys le l).
Proof. apply sort_keys_sorted. Qed.
End sorted_keys.

Lemma StronglySorted_filter {A} (R : relation A) (P : A -> Prop)
    `{!forall x, Decision (P x)} (l : list A) :
  StronglySorted R l -> StronglySorted R (filter P l).
Proof.
  induction 1 as [|x l Hl IH Hx]; [constructor|].
  rewrite filter_cons. destruct (decide (P x)); [|done].
  constructor; [done|].
  apply Forall_forall. intros y [_ Hy]%list_elem_of_filter.
  by eapply Forall_forall in Hx.
Qed.

Lemma StronglySorted_fmap_inv {A B} (f : A -> B) (R : relation B) (l : list A) :
  StronglySorted R (f <$> l) -> StronglySorted (fun x y => R (f x) (f y)) l.
Proof.
  induction l as [|x l IH]; [constructor|].
  rewrite fmap_cons, StronglySorted_cons. intros [Hx Hl].
  constructor; [by apply IH|].
  apply Forall_forall. intros y Hy.
  eapply Forall_forall in Hx; [done|]. by apply list_elem_of_fmap_2.
Qed.

Lemma groupby_sum_pairs {X} (rows : list (Final.t X * xnum)) :
  edge_pair <$> groupby_sum rows = group_keys pair_leb (edge_key <$> rows).
Proof.
  unfold groupby_sum. rewrite <-list_fmap_compose.
  rewrite (list_fmap_ext _ id); [apply list_fmap_id|]. by intros _ [a b] _.
Qed.

(** X14: an aggregated edge list holds at most one edge per ordered pair of
    countries. *)
Theorem one_edge_per_ordered_pair contestants_df votes_df cultural_df
    (top3_only final_only : bool) weighting_method min_participations selected :
  (forall o,
     Preprocessor.main contestants_df votes_df weighting_method
                       min_participations selected = Ok o ->
     NoDup (edge_pair <$> Preprocessor.eurovision_votes o))
  /\ (forall o,
        Preprocessor2.main contestants_df votes_df cultural_df top3_only final_only
                           weighting_method min_participations selected = Ok o ->
        NoDup (edge_pair <$> Preprocessor2.eurovision_votes o)).
Proof.
  split; intros o; open_main Hw.
  - rewrite groupby_sum_pairs. apply NoDup_group_keys.
  - unfold Preprocessor2.drop_zero_edges. apply NoDup_fmap_filter.
    rewrite groupby_sum_pairs. apply NoDup_group_keys.
Qed.

Lemma one_edge_per_ordered_pair_witness :
  exists o,
    Preprocessor.main Sample.contestants Sample.votes "No weights" 1
                      ["Germany"; "France"] = Ok o
    /\ edge_pair <$> Preprocessor.eurovision_votes o = [("DE", "FR"); ("FR", "DE")]
    /\ NoDup (edge_pair <$> Preprocessor.eurovision_votes o).
Proof.
  eexists. split; [vm_compute; reflexivity|]. split; [reflexivity|].
  apply (proj1 (one_edge_per_ordered_pair Sample.contestants Sample.votes
                  Sample.cultural false false "No weights" 1 ["Germany"; "France"])).
  vm_compute. reflexivity.
Defined.

(** X15: an aggregated edge list is sorted by (from_country, to_country) in
    the order of the strings: every edge is followed only by edges whose pair
    is not smaller. *)
Theorem edge_list_sorted_by_pair contestants_df votes_df cultural_df
    (top3_only final_only : bool) weighting_method min_participations selected :
  (forall o,
     Preprocessor.main contestants_df votes_df weighting_method
                       min_participations selected = Ok o ->
     StronglySorted pair_le (edge_pair <$> Preprocessor.eurovision_votes o))
  /\ (forall o,
        Preprocessor2.main contestants_df votes_df cultural_df top3_only final_only
                           weighting_method min_participations selected = Ok o ->
        StronglySorted pair_le (edge_pair <$> Preprocessor2.eurovision_votes o)).
Proof.
  split; intros o; open_main Hw.
  - rewrite groupby_sum_pairs.
    apply (group_keys_sorted pair_leb).
  - unfold Preprocessor2.drop_zero_edges.
    assert (StronglySorted (fun e1 e2 => pair_le (edge_pair e1) (edge_pair e2))
              (groupby_sum (drop_self_loops rows))) as Hs.
    { apply StronglySorted_fmap_inv.
      rewrite groupby_sum_pairs. apply (group_keys_sorted pair_leb). }
    eapply StronglySorted_fmap; [|by apply StronglySorted_filter]. done.
Qed.

Lemma edge_list_sorted_by_pair_witness :
  exists o,
    Preprocessor2.main Sample.contestants Sample.votes Sample.cultural false false
                       "No weights" 1 ["Germany"; "France"] = Ok o
    /\ edge_pair <$> Preprocessor2.eurovision_votes o = [("DE", "FR"); ("FR", "DE")]
    /\ StronglySorted pair_le (edge_pair <$> Preprocessor2.eurovision_votes o).
Proof.
  eexists. split; [vm_compute; reflexivity|]. split; [reflexivity|].
  apply (proj2 (edge_list_sorted_by_pair Sample.contestants Sample.votes
                  Sample.cultural false false "No weights" 1 ["Germany"; "France"])).
  vm_compute. reflexivity.
Defined.

Lemma of_int_inj (a b : Z) : of_int a = of_int b -> a = b.
Proof. unfold of_int. intros H. apply Z2Qc_inj. congruence. Qed.

Lemma groupby_sum_none_edges {X} (final_df : list (Final.t X)) :
  groupby_sum ((fun r => (r, of_int (Final.points_given r))) <$> final_df)
  = (fun k => Edge.mk k.1 k.2 (of_int (pair_total final_df k)))
      <$> group_keys pair_leb (row_pair <$> final_df).
Proof.
  unfold groupby_sum. rewrite <-list_fmap_compose.
  apply list_fmap_ext. intros _ k _. f_equal.
  rewrite filter_fmap, <-!list_fmap_compose.
  unfold pair_total. by rewrite <-column_sum_of_int, <-list_fmap_compose.
Qed.

Lemma elem_of_groupby_sum_none {X} (final_df : list (Final.t X)) e :
  e ∈ groupby_sum ((fun r => (r, of_int (Final.points_given r))) <$> final_df) <->
  edge_pair e ∈ row_pair <$> final_df
  /\ Edge.weighted_points e = of_int (pair_total final_df (edge_pair e)).
Proof.
  rewrite groupby_sum_none_edges, list_elem_of_fmap. split.
  - intros ([a b] & -> & Hk%elem_of_group_keys). by split.
  - intros [Hk Hw]. exists (edge_pair e). rewrite elem_of_group_keys. split; [|done].
    destruct e as [a b w]. simpl in *. by rewrite Hw.
Qed.

(** X16: under 'No weights' the aggregated edge list of the first pipeline
    holds exactly one edge for every ordered pair found among the rows that
    passed the filters and are not self-loops, weighted with the total of the
    raw points of that pair; the second pipeline holds the same edges, except
    those whose total is zero. *)
Theorem none_weighting_edge_is_pair_total contestants_df votes_df cultural_df
    (top3_only final_only : bool) min_participations selected e :
  (forall o,
     Preprocessor.main contestants_df votes_df "No weights"
                       min_participations selected = Ok o ->
     let rows := surviving (apply_filters
                              (Preprocessor.preprocess_data contestants_df votes_df)
                              min_participations selected).1 in
     e ∈ Preprocessor.eurovision_votes o <->
     edge_pair e ∈ row_pair <$> rows
     /\ Edge.weighted_points e = of_int (pair_total rows (edge_pair e)))
  /\ (forall o,
        Preprocessor2.main contestants_df votes_df cultural_df top3_only final_only
                           "No weights" min_participations selected = Ok o ->
        let rows := surviving (apply_filters
                                 (Preprocessor2.preprocess_data
                                    contestants_df votes_df cultural_df
                                    top3_only final_only)
                                 min_participations selected).1 in
        e ∈ Preprocessor2.eurovision_votes o <->
        edge_pair e ∈ row_pair <$> rows
        /\ Edge.weighted_points e = of_int (pair_total rows (edge_pair e))
        /\ pair_total rows (edge_pair e) <> 0).
Proof.
  assert (recognised "No weights") as Hm by (by left).
  split; intros o; open_main Hw;
    apply calculate_weighted_votes_recognised_rows in Hw as ->; try done;
    rewrite drop_self_loops_fmap;
    rewrite (list_fmap_ext _ (fun r => (r, of_int (Final.points_given r))) _)
      by (by intros).
  - apply elem_of_groupby_sum_none.
  - unfold Preprocessor2.drop_zero_edges.
    rewrite list_elem_of_filter, elem_of_groupby_sum_none. split.
    + intros (Hne & Hp & Hw). repeat split; try done.
      intros Hz. apply Hne. by rewrite Hw, Hz.
    + intros (Hp & Hw & Hne). repeat split; try done.
      rewrite Hw. by intros ?%of_int_inj.
Qed.

Lemma none_weighting_edge_is_pair_total_witness :
  exists o,
    Preprocessor.main Sample.contestants Sample.votes "No weights" 1
                      ["Germany"; "France"] = Ok o
    /\ Edge.mk "FR" "DE" (of_int 22) ∈ Preprocessor.eurovision_votes o.
Proof.
  eexists. split; [vm_compute; reflexivity|].
  refine (proj2 (proj1 (none_weighting_edge_is_pair_total
                   Sample.contestants Sample.votes Sample.cultural false false 1
                   ["Germany"; "France"] (Edge.mk "FR" "DE" (of_int 22))) _ _) _).
  - vm_compute. reflexivity.
  - split.
    + apply (bool_decide_unpack _). vm_compute. reflexivity.
    + vm_compute. reflexivity.
Defined.

(** ** Witnesses for two facts shown above *)

Lemma eurovision_votes_no_self_loop_witness :
  exists o,
    Preprocessor2.main Sample.contestants Sample.votes Sample.cultural false false
                       "No weights" 1 ["Germany"; "France"] = Ok o
    /\ Preprocessor2.eurovision_votes o <> []
    /\ no_self_loop (Preprocessor2.eurovision_votes o).
Proof.
  eexists. split; [vm_compute; reflexivity|]. split; [discriminate|].
  apply (proj2 (eurovision_votes_no_self_loop Sample.contestants Sample.votes
                  Sample.cultural false false "No weights" 1 ["Germany"; "France"])).
  vm_compute. reflexivity.
Defined.

Lemma second_pipeline_one_row_per_country_witness :
  exists o,
    Preprocessor2.main Sample.contestants Sample.votes Sample.cultural false false
                       "No weights" 1 ["Germany"; "France"] = Ok o
    /\ NoDup (Cultural.country_id <$> Cultural.rows Sample.cultural)
    /\ Node.country_id <$> Preprocessor2.country_counts_df o = ["DE"; "FR"]
    /\ NoDup (Node.country_id <$> Preprocessor2.country_counts_df o).
Proof.
  assert (NoDup (Cultural.country_id <$> Cultural.rows Sample.cultural)) as Hnd.
  { apply (bool_decide_unpack _). vm_compute. reflexivity. }
  eexists. split; [vm_compute; reflexivity|]. split; [exact Hnd|].
  split; [reflexivity|].
  refine (proj2 (second_pipeline_one_row_per_country
                   Sample.contestants Sample.votes Sample.cultural false false
                   "No weights" 1 ["Germany"; "France"] _ _) Hnd).
  vm_compute. reflexivity.
Defined.

(** ** The join with the cultural file *)

(** X19: the left join with the cultural file keeps every country and adds
    none: each node of its argument is found in the result with the same id,
    name and count, with all cultural cells null when the file has no row for
    it, and each node of the result comes from one of the argument; when the
    file has one row per country the ids are the same list. *)
Theorem cultural_join_keeps_every_country (nodes : list (Node.t unit))
    (cultural_df : Cultural.frame) :
  (forall n0, n0 ∈ nodes ->
     exists n, n ∈ Preprocessor2.merge_cultural nodes cultural_df
               /\ Node.country_id n = Node.country_id n0
               /\ Node.country_name n = Node.country_name n0
               /\ Node.count n = Node.count n0
               /\ (Cultural.country_id <$> Cultural.rows cultural_df
                     ## [Node.country_id n0] ->
                   Node.attrs n
                   = replicate (length (Cultural.dimensions cultural_df)) None))
  /\ (forall n, n ∈ Preprocessor2.merge_cultural nodes cultural_df ->
        exists n0, n0 ∈ nodes /\ Node.country_id n = Node.country_id n0
                   /\ Node.country_name n = Node.country_name n0
                   /\ Node.count n = Node.count n0)
  /\ (length nodes <= length (Preprocessor2.merge_cultural nodes cultural_df))%nat
  /\ (NoDup (Cultural.country_id <$> Cultural.rows cultural_df) ->
      Node.country_id <$> Preprocessor2.merge_cultural nodes cultural_df
      = Node.country_id <$> nodes).
Proof.
  split; [intros n0; apply merge_cultural_keeps|].
  split; [intros n; apply elem_of_merge_cultural|].
  split; [|apply merge_cultural_ids].
  unfold Preprocessor2.merge_cultural.
  induction nodes as [|n nodes IH]; [done|].
  rewrite bind_cons, length_app. cbn [length].
  destruct (filter _ (Cultural.rows cultural_df)); rewrite ?length_fmap; cbn [length]; lia.
Qed.

Lemma cultural_join_keeps_every_country_witness :
  Node.mk "ES" (Some "Spain") 1 [None; None]
  ∈ Preprocessor2.merge_cultural
      [Node.mk "DE" (Some "Germany") 2 tt; Node.mk "ES" (Some "Spain") 1 tt]
      Sample.cultural
  /\ Node.country_id
       <$> Preprocessor2.merge_cultural
             [Node.mk "DE" (Some "Germany") 2 tt; Node.mk "ES" (Some "Spain") 1 tt]
             Sample.cultural
     = ["DE"; "ES"].
Proof.
  split; [do 1 apply list_elem_of_further; apply list_elem_of_here|].
  apply (proj2 (proj2 (proj2 (cultural_join_keeps_every_country
           [Node.mk "DE" (Some "Germany") 2 tt; Node.mk "ES" (Some "Spain") 1 tt]
           Sample.cultural)))).
  apply (bool_decide_unpack _). vm_compute. reflexivity.
Defined.

(** ** The weighting step, applied again *)

Lemma calculate_weighted_votes_frame_rows {X} (df : frame X) m :
  frame_rows (calculate_weighted_votes df m) = frame_rows df.
Proof.
  destruct (decide (recognised m)) as [Hm|Hm].
  - rewrite calculate_weighted_votes_recognised by done. simpl.
    rewrite <-list_fmap_compose. apply list_fmap_id.
  - by rewrite calculate_weighted_votes_other.
Qed.

(** X20: the weighting step keeps the rows of the frame, whatever the option,
    and computes the new column from the raw columns only: applying a
    recognised option to a frame that was weighted before gives what it gives
    on the frame as it was (the column is overwritten). *)
Theorem weighting_overwrites_earlier_weighting {X} (final_df : frame X)
    (method1 method2 : string) (Hm : recognised method2) :
  frame_rows (calculate_weighted_votes final_df method1) = frame_rows final_df
  /\ calculate_weighted_votes (calculate_weighted_votes final_df method1) method2
     = calculate_weighted_votes final_df method2.
Proof.
  split; [apply calculate_weighted_votes_frame_rows|].
  rewrite !(calculate_weighted_votes_recognised _ method2) by done.
  by rewrite calculate_weighted_votes_frame_rows.
Qed.

Lemma weighting_overwrites_earlier_weighting_witness :
  let final_df := Unweighted (Preprocessor.preprocess_data Sample.contestants Sample.votes).1 in
  recognised "No weights"
  /\ calculate_weighted_votes (calculate_weighted_votes final_df "Divide by both")
                              "No weights"
     = calculate_weighted_votes final_df "No weights".
Proof.
  assert (recognised "No weights") as Hm by (by left).
  split; [exact Hm|].
  apply (proj2 (weighting_overwrites_earlier_weighting
                  (Unweighted (Preprocessor.preprocess_data Sample.contestants
                                                            Sample.votes).1)
                  "Divide by both" "No weights" Hm)).
Defined.

(** ** Counts equal to one *)

Lemma apply_filters_participation_node {X Y} (final_df : list (Final.t X))
    (nodes : list (Node.t Y)) min_participations selected r :
  (forall r, r ∈ final_df ->
     Final.to_country_participation r
     = Preprocessor.participation_map nodes !! Final.to_country r) ->
  r ∈ (apply_filters (final_df, nodes) min_participations selected).1 ->
  exists n, n ∈ nodes /\ Final.to_country_participation r = Some (Node.count n).
Proof.
  intros Hlook. unfold apply_filters, filter_countries, known_endpoints. cbn [fst].
  intros [_ [_ [Hto Hr]%list_elem_of_filter]%list_elem_of_filter]%list_elem_of_filter.
  apply list_elem_of_fmap in Hto as (n0 & Hid & [_ Hn0]%list_elem_of_filter).
  destruct (participation_map_lookup nodes (Final.to_country r)) as (n & Hn & _ & Hc).
  { rewrite Hid. by apply list_elem_of_fmap_2. }
  exists n. by rewrite (Hlook r Hr).
Qed.

Lemma true_divide_one (a : Z) : true_divide a (Some 1) = of_int a.
Proof.
  unfold true_divide, of_int. f_equal.
  rewrite Z2Qc_inj_1. apply (right_id 1%Qc Qcdiv).
Qed.

Lemma cell_mul_one (t : option Z) : cell_mul t (Some 1) = t.
Proof. destruct t as [z|]; [|done]. simpl. f_equal. lia. Qed.

Lemma weight_of_count_one {X} (r : Final.t X) :
  Final.to_country_participation r = Some 1 ->
  weight_of "Divide by participation count" r = weight_of "No weights" r
  /\ weight_of "Divide by both" r = weight_of "Divide by total points" r.
Proof.
  intros Hc. unfold weight_of. repeat case_decide; try done.
  rewrite Hc, true_divide_one, cell_mul_one. done.
Qed.

Lemma weighted_frames_equal {X} (final_df : list (Final.t X)) m1 m2 :
  recognised m1 -> recognised m2 ->
  (forall r, r ∈ final_df -> weight_of m1 r = weight_of m2 r) ->
  calculate_weighted_votes (Unweighted final_df) m1
  = calculate_weighted_votes (Unweighted final_df) m2.
Proof.
  intros H1 H2 Hw. rewrite !calculate_weighted_votes_recognised by done.
  cbn [frame_rows]. f_equal. apply list_fmap_ext.
  intros i r Hr%list_elem_of_lookup_2. by rewrite Hw.
Qed.

(** X21: when every counted country has the count 1, either pipeline gives
    under 'Divide by participation count' what it gives under 'No weights',
    and under 'Divide by both' what it gives under 'Divide by total
    points'. *)
Theorem counts_of_one_make_participation_division_neutral
    contestants_df votes_df cultural_df (top3_only final_only : bool)
    min_participations selected :
  ((forall n, n ∈ (Preprocessor.preprocess_data contestants_df votes_df).2 ->
      Node.count n = 1) ->
   Preprocessor.main contestants_df votes_df "Divide by participation count"
                     min_participations selected
   = Preprocessor.main contestants_df votes_df "No weights"
                       min_participations selected
   /\ Preprocessor.main contestants_df votes_df "Divide by both"
                        min_participations selected
      = Preprocessor.main contestants_df votes_df "Divide by total points"
                          min_participations selected)
  /\ ((forall n, n ∈ (Preprocessor2.preprocess_data contestants_df votes_df cultural_df
                                                    top3_only final_only).2 ->
         Node.count n = 1) ->
      Preprocessor2.main contestants_df votes_df cultural_df top3_only final_only
                         "Divide by participation count" min_participations selected
      = Preprocessor2.main contestants_df votes_df cultural_df top3_only final_only
                           "No weights" min_participations selected
      /\ Preprocessor2.main contestants_df votes_df cultural_df top3_only final_only
                            "Divide by both" min_participations selected
         = Preprocessor2.main contestants_df votes_df cultural_df top3_only final_only
                              "Divide by total points" min_participations selected).
Proof.
  assert (recognised "No weights") as R1 by (by left).
  assert (recognised "Divide by participation count") as R2 by (right; by left).
  assert (recognised "Divide by total points") as R3 by (do 2 right; by left).
  assert (recognised "Divide by both") as R4 by (by do 3 right).
  split; intros Hone.
  - rewrite !main_unfold. cbv zeta.
    destruct (Preprocessor.preprocess_data contestants_df votes_df)
      as [final_df nodes] eqn:Hpre.
    assert (forall r, r ∈ (apply_filters (final_df, nodes) min_participations selected).1 ->
              Final.to_country_participation r = Some 1) as Hc.
    { intros r Hr.
      destruct (apply_filters_participation_node final_df nodes
                  min_participations selected r) as (n & Hn & ->); [|done|].
      - intros r' Hr'. change final_df with (final_df, nodes).1 in Hr'.
        rewrite <-Hpre in Hr'. rewrite (preprocess_data_lookup _ _ _ Hr').
        by rewrite Hpre.
      - by rewrite (Hone n Hn). }
    rewrite (weighted_frames_equal _ "Divide by participation count" "No weights")
      by (try done; intros r Hr; by apply weight_of_count_one, Hc).
    rewrite (weighted_frames_equal _ "Divide by both" "Divide by total points")
      by (try done; intros r Hr; by apply weight_of_count_one, Hc).
    done.
  - rewrite !main2_unfold. cbv zeta.
    destruct (Preprocessor2.preprocess_data contestants_df votes_df cultural_df
                                            top3_only final_only)
      as [final_df nodes] eqn:Hpre.
    assert (forall r, r ∈ (apply_filters (final_df, nodes) min_participations selected).1 ->
              Final.to_country_participation r = Some 1) as Hc.
    { intros r Hr.
      destruct (apply_filters_participation_node final_df nodes
                  min_participations selected r) as (n & Hn & ->); [|done|].
      - intros r' Hr'. change final_df with (final_df, nodes).1 in Hr'.
        rewrite <-Hpre in Hr'. rewrite (preprocess_data2_lookup _ _ _ _ _ _ Hr').
        by rewrite Hpre.
      - by rewrite (Hone n Hn). }
    rewrite (weighted_frames_equal _ "Divide by participation count" "No weights")
      by (try done; intros r Hr; by apply weight_of_count_one, Hc).
    rewrite (weighted_frames_equal _ "Divide by both" "Divide by total points")
      by (try done; intros r Hr; by apply weight_of_count_one, Hc).
    done.
Qed.

Lemma counts_of_one_make_participation_division_neutral_witness :
  let votes_df := [ Vote.mk 2021 "final" "FR" "DE" "DE" None (Some 40) 10;
                    Vote.mk 2021 "final" "DE" "FR" "FR" None (Some 30) 5 ] in
  Preprocessor.main Sample.contestants votes_df "Divide by both" 1 ["Germany"; "France"]
  = Preprocessor.main Sample.contestants votes_df "Divide by total points" 1
                      ["Germany"; "France"]
  /\ exists o, Preprocessor.main Sample.contestants votes_df "Divide by both" 1
                                 ["Germany"; "France"] = Ok o
               /\ length (Preprocessor.eurovision_votes o) = 2%nat.
Proof.
  split.
  - refine (proj2 (proj1 (counts_of_one_make_participation_division_neutral
                     Sample.contestants
                     [ Vote.mk 2021 "final" "FR" "DE" "DE" None (Some 40) 10;
                       Vote.mk 2021 "final" "DE" "FR" "FR" None (Some 30) 5 ]
                     Sample.cultural false false 1 ["Germany"; "France"]) _)).
    intros n Hn. vm_compute in Hn.
    repeat (apply elem_of_cons in Hn as [->|Hn]); try (by apply elem_of_nil in Hn);
      reflexivity.
  - eexists. split; [vm_compute; reflexivity|reflexivity].
Defined.

(** ** The two optional filters and the counts *)

Lemma filtered_votes_subseteq votes_df top3_only final_only v :
  v ∈ Preprocessor2.filtered_votes votes_df top3_only final_only ->
  v ∈ Preprocessor2.filtered_votes votes_df false false.
Proof.
  unfold Preprocessor2.filtered_votes.
  destruct top3_only, final_only; rewrite ?list_elem_of_filter; naive_solver.
Qed.

Lemma merge_subseteq (votes1 votes2 : list Vote.t) contestants_df m :
  (forall v, v ∈ votes1 -> v ∈ votes2) ->
  m ∈ merge votes1 contestants_df -> m ∈ merge votes2 contestants_df.
Proof.
  intros Hsub. unfold merge. rewrite !list_elem_of_bind.
  intros (v & Hm & Hv). exists v. split; [done|by apply Hsub].
Qed.

Lemma merge_has_row_of_vote (votes_df : list Vote.t) contestants_df v :
  v ∈ votes_df ->
  exists m, m ∈ merge votes_df contestants_df
            /\ Merged.to_country_id m = Vote.to_country_id v.
Proof.
  intros Hv. unfold merge. setoid_rewrite list_elem_of_bind.
  destruct (filter (fun c => Contestant.year c = Vote.year v
                             /\ Contestant.to_country_id c = Vote.to_country_id v)
                   contestants_df) as [|c cs] eqn:Hf.
  - exists (merged_row v None). split; [|done]. exists v. split; [|done].
    rewrite Hf. apply list_elem_of_here.
  - exists (merged_row v (Some (Contestant.to_country c))). split; [|done].
    exists v. split; [|done]. rewrite Hf, fmap_cons. apply list_elem_of_here.
Qed.

Lemma drop_duplicates_length_mono {A} `{EqDecision A} (l1 l2 : list A) :
  (forall x, x ∈ l1 -> x ∈ l2) ->
  (length (drop_duplicates l1) <= length (drop_duplicates l2))%nat.
Proof.
  intros Hsub. apply submseteq_length, NoDup_submseteq.
  - apply NoDup_drop_duplicates.
  - intros x. rewrite !elem_of_drop_duplicates. apply Hsub.
Qed.

(** X22: in the second pipeline the options TOP 3 ONLY and ONLY FINAL add no
    country and raise no count: every node of a filtered run has a node of
    the same country in the run with both options off, and its count is not
    larger. *)
Theorem optional_filters_never_raise_a_count contestants_df votes_df cultural_df
    (top3_only final_only : bool) n
    (Hn : n ∈ (Preprocessor2.preprocess_data contestants_df votes_df cultural_df
                                             top3_only final_only).2) :
  (exists n0,
     n0 ∈ (Preprocessor2.preprocess_data contestants_df votes_df cultural_df
                                         false false).2
     /\ Node.country_id n0 = Node.country_id n)
  /\ forall n0,
       n0 ∈ (Preprocessor2.preprocess_data contestants_df votes_df cultural_df
                                           false false).2 ->
       Node.country_id n0 = Node.country_id n ->
       Node.count n <= Node.count n0.
Proof.
  pose proof (elem_of_preprocess_data2_nodes _ _ _ _ _ _ Hn) as (_ & Hcount & Hid).
  split.
  - apply list_elem_of_fmap in Hid as (v & Hid & Hv%filtered_votes_subseteq).
    destruct (merge_has_row_of_vote _ contestants_df v Hv) as (m & Hm & Hmid).
    rewrite <-Hid in Hmid.
    assert (Node.country_id n
            ∈ Node.country_id
                <$> Preprocessor2.country_counts
                      (Preprocessor2.unique_years
                         (Preprocessor2.merged contestants_df votes_df false false)))
      as (n1 & Hid1 & Hn1)%list_elem_of_fmap.
    { rewrite country_counts_ids, elem_of_group_keys.
      apply list_elem_of_fmap. exists (Preprocessor2.unique_row m). split; [done|].
      unfold Preprocessor2.unique_years. rewrite elem_of_drop_duplicates.
      by apply list_elem_of_fmap_2. }
    destruct (merge_cultural_keeps _ cultural_df n1 Hn1) as (n0 & Hn0 & Hid0 & _).
    exists n0. split; [done|]. by rewrite Hid0.
  - intros n0 Hn0 Heq.
    pose proof (elem_of_preprocess_data2_nodes _ _ _ _ _ _ Hn0) as (_ & Hcount0 & _).
    cbv zeta in Hcount, Hcount0.
    rewrite Hcount, Hcount0. apply inj_le, drop_duplicates_length_mono.
    intros u (m & -> & [Hmid Hm]%list_elem_of_filter)%list_elem_of_fmap.
    apply list_elem_of_fmap_2, list_elem_of_filter. split; [by rewrite Heq|].
    revert Hm. apply merge_subseteq, filtered_votes_subseteq.
Qed.

Lemma optional_filters_never_raise_a_count_witness :
  exists n n0,
    n ∈ (Preprocessor2.preprocess_data Sample.contestants Sample.votes Sample.cultural
                                       true false).2
    /\ n0 ∈ (Preprocessor2.preprocess_data Sample.contestants Sample.votes
                                           Sample.cultural false false).2
    /\ Node.country_id n = "FR" /\ Node.country_id n0 = "FR"
    /\ Node.count n = 1 /\ Node.count n0 = 2
    /\ Node.count n <= Node.count n0.
Proof.
  assert (Node.mk "FR" (Some "France") 1 [Some 68; None]
          ∈ (Preprocessor2.preprocess_data Sample.contestants Sample.votes
                                           Sample.cultural true false).2) as Hn
    by (apply list_elem_of_further, list_elem_of_here).
  assert (Node.mk "FR" (Some "France") 2 [Some 68; None]
          ∈ (Preprocessor2.preprocess_data Sample.contestants Sample.votes
                                           Sample.cultural false false).2) as Hn0
    by (apply list_elem_of_further, list_elem_of_here).
  eexists _, _. split; [exact Hn|]. split; [exact Hn0|].
  do 4 (split; [reflexivity|]).
  apply (proj2 (optional_filters_never_raise_a_count
                  Sample.contestants Sample.votes Sample.cultural true false _ Hn)
               _ Hn0 eq_refl).
Defined.

(** ** The counts of the first pipeline *)

(** X26: in the first pipeline every node has a name, and its count is the
    number of distinct (year, round) pairs among the merged rows that carry
    its label [to_country_x] and its name [to_country_y]. *)
Theorem first_pipeline_count_is_distinct_rounds contestants_df votes_df n
    (Hn : n ∈ (Preprocessor.preprocess_data contestants_df votes_df).2) :
  exists name,
    Node.country_name n = Some name
    /\ Node.count n
       = Z.of_nat
           (length
              (drop_duplicates
                 ((fun m => (Merged.year m, Merged.round m))
                    <$> filter (fun m => Merged.to_country_x m = Node.country_id n
                                         /\ Merged.to_country_y m = Some name)
                               (Preprocessor.merged contestants_df votes_df)))).
Proof.
  revert Hn. unfold Preprocessor.preprocess_data, Preprocessor.country_counts.
  cbn [snd]. intros ([label name] & -> & _)%list_elem_of_fmap.
  exists name. split; [done|]. cbn [Node.count Node.country_id fst snd]. f_equal.
  unfold Preprocessor.unique_years.
  rewrite <-drop_duplicates_filter, filter_fmap.
  set (rows := filter _ (Preprocessor.merged contestants_df votes_df)).
  rewrite (list_fmap_ext (fun m => (Merged.year m, Merged.round m))
             ((fun u : Z * string * string * option string => (u.1.1.1, u.1.1.2))
                ∘ Preprocessor.unique_row) rows) by done.
  rewrite list_fmap_compose,
    (drop_duplicates_fmap_inj (fun u : Z * string * string * option string =>
                                 (u.1.1.1, u.1.1.2))), length_fmap; [done|].
  intros u1 u2 (m1 & -> & [[Hx1 Hy1] _]%list_elem_of_filter)%list_elem_of_fmap
               (m2 & -> & [[Hx2 Hy2] _]%list_elem_of_filter)%list_elem_of_fmap.
  unfold Preprocessor.unique_row in *. simpl in *. intros [= -> ->].
  by rewrite Hx1, Hx2, Hy1, Hy2.
Qed.

Lemma first_pipeline_count_is_distinct_rounds_witness :
  exists n name,
    n ∈ (Preprocessor.preprocess_data Sample.contestants Sample.votes).2
    /\ Node.country_id n = "FR"
    /\ Node.country_name n = Some name
    /\ Node.count n = 2.
Proof.
  assert (Node.mk "FR" (Some "France") 2 tt
          ∈ (Preprocessor.preprocess_data Sample.contestants Sample.votes).2) as Hn
    by (do 2 apply list_elem_of_further; apply list_elem_of_here).
  destruct (first_pipeline_count_is_distinct_rounds Sample.contestants Sample.votes _ Hn)
    as (name & Hname & Hcount).
  eexists _, name. split; [exact Hn|]. split; [reflexivity|]. split; [exact Hname|].
  reflexivity.
Defined.

(** ** The dictionary from names to ids *)

Lemma to_dict_app_last {V} (items1 items2 : list (string * V)) k v :
  k ∉ items2.*1 -> to_dict (items1 ++ (k, v) :: items2) !! k = Some v.
Proof.
  induction items2 as [|[k' v'] items2 IH] using rev_ind; intros Hk.
  - rewrite to_dict_snoc. apply lookup_insert_eq.
  - rewrite fmap_app, not_elem_of_app in Hk. destruct Hk as [Hk Hk'].
    simpl in Hk'. rewrite list_elem_of_singleton in Hk'.
    rewrite app_comm_cons, app_assoc, to_dict_snoc, lookup_insert_ne by done.
    by apply IH.
Qed.

Lemma omap_names_fst {Y} (nodes : list (Node.t Y)) :
  Some <$> (omap (fun n => name ← Node.country_name n;
                           Some (name, Node.country_id n)) nodes).*1
  = filter is_Some (Node.country_name <$> nodes).
Proof.
  induction nodes as [|n nodes IH]; [done|].
  rewrite fmap_cons. destruct (Node.country_name n) as [name|] eqn:Hn.
  - rewrite filter_cons_True by eauto. rewrite <-IH. simpl. by rewrite Hn.
  - rewrite filter_cons_False by (by intros [? ?]). rewrite <-IH. simpl.
    by rewrite Hn.
Qed.

Lemma country_mapping_app_last {Y} (nodes1 nodes2 : list (Node.t Y)) n name :
  Node.country_name n = Some name ->
  Some name ∉ Node.country_name <$> nodes2 ->
  country_mapping (nodes1 ++ n :: nodes2) !! name = Some (Node.country_id n).
Proof.
  intros Hname Hlast.
  unfold country_mapping. rewrite omap_app. simpl. rewrite Hname. simpl.
  apply to_dict_app_last.
  intros Hin. apply Hlast.
  apply (list_elem_of_fmap_2 Some) in Hin. rewrite omap_names_fst in Hin.
  by apply list_elem_of_filter in Hin as [_ Hin].
Qed.

(** X24: in the dictionary from names to ids a later node replaces an earlier
    node of the same name: a name is mapped to the id of the last node that
    carries it, and a name that no node carries is not a key. *)
Theorem country_mapping_last_node_wins {Y} (nodes1 nodes2 : list (Node.t Y))
    (n : Node.t Y) (name : string)
    (Hname : Node.country_name n = Some name)
    (Hlast : Some name ∉ Node.country_name <$> nodes2) :
  country_mapping (nodes1 ++ n :: nodes2) !! name = Some (Node.country_id n)
  /\ forall other,
       Some other ∉ Node.country_name <$> (nodes1 ++ n :: nodes2)%list ->
       country_mapping (nodes1 ++ n :: nodes2) !! other = None.
Proof.
  split; [by apply country_mapping_app_last|].
  intros other Hother.
  destruct (country_mapping (nodes1 ++ n :: nodes2)%list !! other) as [id|] eqn:Hl;
    [|done].
  apply country_mapping_lookup in Hl as (n' & Hn' & Hnm & _).
  destruct Hother. rewrite <-Hnm. by apply list_elem_of_fmap_2.
Qed.

Lemma country_mapping_last_node_wins_witness :
  country_mapping
    ([Node.mk "DE" (Some "Germany") 1 tt]
       ++ Node.mk "DD" (Some "Germany") 1 tt :: [Node.mk "FR" (Some "France") 2 tt])
    !! "Germany" = Some "DD".
Proof.
  apply (proj1 (country_mapping_last_node_wins
                  [Node.mk "DE" (Some "Germany") 1 tt]
                  [Node.mk "FR" (Some "France") 2 tt]
                  (Node.mk "DD" (Some "Germany") 1 tt) "Germany" eq_refl
                  ltac:(apply (bool_decide_unpack _); vm_compute; reflexivity))).
Defined.

Lemma country_mapping_lookup_NoDup {Y} (nodes : list (Node.t Y)) n name :
  NoDup (Node.country_name <$> nodes) ->
  n ∈ nodes -> Node.country_name n = Some name ->
  country_mapping nodes !! name = Some (Node.country_id n).
Proof.
  intros Hnd Hn Hname.
  apply list_elem_of_split in Hn as (nodes1 & nodes2 & ->).
  apply country_mapping_app_last; [done|].
  rewrite fmap_app, fmap_cons, NoDup_app in Hnd.
  destruct Hnd as (_ & _ & [Hnot _]%NoDup_cons). by rewrite <-Hname.
Qed.

(** X23: when the nodes have distinct names, none of them NaN, and all these
    names are selected, the selection removes nothing: [filter_countries]
    returns a frame whose endpoints are all nodes as it is, and the node list
    stays as it is. *)
Theorem selecting_all_distinct_names_removes_nothing {X Y}
    (final_df : list (Final.t X)) (nodes : list (Node.t Y)) (selected : list string)
    (Hdistinct : NoDup (Node.country_name <$> nodes))
    (Hall : forall n, n ∈ nodes ->
              exists name, Node.country_name n = Some name /\ name ∈ selected)
    (Hends : forall r, r ∈ final_df ->
               Final.from_country r ∈ Node.country_id <$> nodes
               /\ Final.to_country r ∈ Node.country_id <$> nodes) :
  filter_countries final_df nodes selected = final_df
  /\ selected_nodes selected nodes = nodes.
Proof.
  assert (forall id, id ∈ Node.country_id <$> nodes ->
            id ∈ omap (fun country => country_mapping nodes !! country) selected)
    as Hids.
  { intros id (n & -> & Hn)%list_elem_of_fmap.
    destruct (Hall n Hn) as (name & Hname & Hsel).
    apply list_elem_of_omap. exists name. split; [done|].
    by apply country_mapping_lookup_NoDup. }
  split.
  - unfold filter_countries. apply filter_all.
    intros r Hr. destruct (Hends r Hr). split; by apply Hids.
  - unfold selected_nodes. apply filter_all.
    intros n Hn. destruct (Hall n Hn) as (name & -> & Hsel).
    by apply list_elem_of_fmap_2.
Qed.

Lemma selecting_all_distinct_names_removes_nothing_witness :
  let pre := Preprocessor2.preprocess_data Sample.contestants Sample.votes
                                           Sample.cultural false false in
  let final_df := known_endpoints pre.2 pre.1 in
  length final_df = 5%nat
  /\ filter_countries final_df pre.2 ["France"; "Germany"] = final_df.
Proof.
  split; [reflexivity|].
  refine (proj1 (selecting_all_distinct_names_removes_nothing
                   (known_endpoints
                      (Preprocessor2.preprocess_data Sample.contestants Sample.votes
                                                     Sample.cultural false false).2
                      (Preprocessor2.preprocess_data Sample.contestants Sample.votes
                                                     Sample.cultural false false).1)
                   (Preprocessor2.preprocess_data Sample.contestants Sample.votes
                                                  Sample.cultural false false).2
                   ["France"; "Germany"] _ _ _)).
  - apply (bool_decide_unpack _). vm_compute. reflexivity.
  - intros n Hn. vm_compute in Hn.
    repeat (apply elem_of_cons in Hn as [->|Hn]); try (by apply elem_of_nil in Hn);
      eexists; (split; [reflexivity|]);
      apply (bool_decide_unpack _); reflexivity.
  - intros r Hr. unfold known_endpoints in Hr.
    apply list_elem_of_filter in Hr as [Hfrom [Hto _]%list_elem_of_filter]. done.
Defined.

(** ** Labels and ids in the first pipeline *)

(** X25: the first pipeline names its nodes by the label [to_country] of the
    votes file and looks the [to_country_id] of a vote up among them; when no
    label equals any destination id, no vote passes the filter on the
    endpoints and the edge list is empty. *)
Theorem first_pipeline_needs_labels_equal_to_ids contestants_df votes_df
    weighting_method min_participations selected o
    (Hlabels : forall m1 m2,
                 m1 ∈ Preprocessor.merged contestants_df votes_df ->
                 m2 ∈ Preprocessor.merged contestants_df votes_df ->
                 Merged.to_country_x m1 <> Merged.to_country_id m2)
    (Hrun : Preprocessor.main contestants_df votes_df weighting_method
                              min_participations selected = Ok o) :
  Preprocessor.eurovision_votes o = [].
Proof.
  revert Hrun. open_main Hw.
  assert ((apply_filters (Preprocessor.preprocess_data contestants_df votes_df)
                         min_participations selected).1 = []) as Hempty.
  { apply elem_of_nil_inv. intros r Hr.
    unfold Preprocessor.preprocess_data, apply_filters, filter_countries,
      known_endpoints in Hr. cbn [fst] in Hr.
    apply list_elem_of_filter in Hr
      as [_ [_ [Hto Hr]%list_elem_of_filter]%list_elem_of_filter].
    apply list_elem_of_fmap in Hr as (m2 & -> & Hm2).
    apply list_elem_of_fmap in Hto as (n & Hid & [_ Hn]%list_elem_of_filter).
    unfold Preprocessor.country_counts in Hn.
    apply list_elem_of_fmap in Hn as (k & -> & Hk).
    apply elem_of_group_keys, list_elem_of_omap in Hk as (u & Hu & Hk).
    unfold Preprocessor.unique_years in Hu.
    apply elem_of_drop_duplicates, list_elem_of_fmap in Hu as (m1 & -> & Hm1).
    unfold Preprocessor.unique_row in Hk. simpl in Hk, Hid.
    destruct (Merged.to_country_y m1); simplify_eq/=.
    by apply (Hlabels m1 m2). }
  rewrite Hempty in Hw.
  apply calculate_weighted_votes_rows in Hw. simpl in Hw.
  apply fmap_nil_inv in Hw as ->. done.
Qed.

Lemma first_pipeline_needs_labels_equal_to_ids_witness :
  let votes_df := [ Vote.mk 2021 "final" "FR" "DE" "Germany" None (Some 40) 10;
                    Vote.mk 2021 "final" "DE" "FR" "France" None (Some 30) 5 ] in
  exists o,
    Preprocessor.main Sample.contestants votes_df "No weights" 1
                      ["Germany"; "France"] = Ok o
    /\ length (Preprocessor.country_counts_df o) = 2%nat
    /\ Preprocessor.eurovision_votes o = [].
Proof.
  eexists. split; [vm_compute; reflexivity|]. split; [reflexivity|].
  refine (first_pipeline_needs_labels_equal_to_ids Sample.contestants
            [ Vote.mk 2021 "final" "FR" "DE" "Germany" None (Some 40) 10;
              Vote.mk 2021 "final" "DE" "FR" "France" None (Some 30) 5 ]
            "No weights" 1 ["Germany"; "France"] _ _ _).
  - intros m1 m2 H1 H2. vm_compute in H1, H2.
    repeat (apply elem_of_cons in H1 as [->|H1]); try (by apply elem_of_nil in H1);
      repeat (apply elem_of_cons in H2 as [->|H2]); try (by apply elem_of_nil in H2);
      discriminate.
  - vm_compute. reflexivity.
Defined.
